(** * SwarmRL interaction models: vision-cone rules and the ML action model

    A shallow embedding of [swarmrl/models/bechinger_models.py] and
    [swarmrl/models/ml_model.py].

    Numbers.  A numpy [float64] is modelled by a real number, so arithmetic is
    exact; rounding, overflow and signed zeros are outside the model.  The one
    non-finite value that the code can produce from finite inputs and then go
    on computing with is [nan]: it comes from dividing an array by a zero
    scalar and from [np.arccos] outside [-1, 1].  A possibly-[nan] scalar is an
    [option R] and a possibly-[nan] array an [option vec3], with [None] for
    [nan]; comparisons with [nan] are false and [np.argmin] stops at the first
    [nan], as numpy does.  [np.inf] appears only as the default of
    [vision_range]; ranges are extended reals. *)

From Stdlib Require Import String.
From Stdlib Require Import Reals Lra Lia List Bool PeanoNat Permutation.
Import ListNotations.

Local Open Scope R_scope.

(** ** Comparisons as booleans *)

Definition Rltb (a b : R) : bool := if Rlt_dec a b then true else false.
Definition Rleb (a b : R) : bool := if Rle_dec a b then true else false.
Definition Rgeb (a b : R) : bool := if Rge_dec a b then true else false.

(** An extended real: a finite value or [np.inf]. *)
Inductive ereal : Type :=
| Fin (r : R)
| PInf.

(** [x < y] for a finite [x] and an extended [y]. *)
Definition lt_ereal (x : R) (y : ereal) : bool :=
  match y with
  | Fin r => Rltb x r
  | PInf => true
  end.

(** [x < y] for a possibly-[nan] [x]: false on [nan]. *)
Definition nan_ltb (x : option R) (y : R) : bool :=
  match x with
  | Some v => Rltb v y
  | None => false
  end.

(** ** Arrays of shape (3,) *)

Record vec3 : Type := V3 { vx : R; vy : R; vz : R }.

(** The numpy operations the models use. *)
Module np.

Definition zeros3 : vec3 := V3 0 0 0.

(** [np.array(a)] and [np.copy(a)]: a new array with the same entries. *)
Definition array (a : vec3) : vec3 := V3 (vx a) (vy a) (vz a).
Definition copy (a : vec3) : vec3 := V3 (vx a) (vy a) (vz a).

Definition sub (a b : vec3) : vec3 :=
  V3 (vx a - vx b) (vy a - vy b) (vz a - vz b).

(** [s * a] for a scalar [s]. *)
Definition scale (s : R) (a : vec3) : vec3 :=
  V3 (s * vx a) (s * vy a) (s * vz a).

Definition dot (a b : vec3) : R :=
  vx a * vx b + vy a * vy b + vz a * vz b.

Definition linalg_norm (a : vec3) : R :=
  sqrt (vx a * vx a + vy a * vy a + vz a * vz a).

(** [a / s] for a scalar [s].  With [s = 0] numpy signals a floating-point
    error and gives a non-finite array; every such division in the models
    divides by the norm of an array that is zero whenever the norm is, so
    the array is all [nan]. *)
Definition div (a : vec3) (s : R) : option vec3 :=
  if Req_dec_T s 0 then None
  else Some (V3 (vx a / s) (vy a / s) (vz a / s)).

(** [np.dot(a, b)] when an argument may be [nan]. *)
Definition dot_nan (a b : option vec3) : option R :=
  match a, b with
  | Some u, Some v => Some (dot u v)
  | _, _ => None
  end.

(** [np.arccos]: [nan] outside [-1, 1] and on [nan]. *)
Definition arccos (x : option R) : option R :=
  match x with
  | Some v => if Rleb (-1) v && Rleb v 1 then Some (acos v) else None
  | None => None
  end.

(** [np.arctan2(y, x)], the angle of the point [(x, y)] in (-pi, pi]. *)
Definition arctan2 (y x : R) : R :=
  if Rltb 0 x then atan (y / x)
  else if Rltb x 0 then
    if Rleb 0 y then atan (y / x) + PI else atan (y / x) - PI
  else if Rltb 0 y then PI / 2
  else if Rltb y 0 then - (PI / 2)
  else 0.

Definition sum (l : list R) : R := fold_left Rplus l 0.

(** [np.mean] of a row: the sum over the count. *)
Definition mean (l : list R) : R := sum l / INR (length l).

(** [np.stack(arrays, axis=1)]: the 3 x n matrix whose columns are the
    arrays, kept as its three rows. *)
Definition stack_axis1 (l : list vec3) : list R * list R * list R :=
  (map vx l, map vy l, map vz l).

(** [np.mean(m, axis=1)]: the mean of each row. *)
Definition mean_axis1 (m : list R * list R * list R) : vec3 :=
  let '(r0, r1, r2) := m in V3 (mean r0) (mean r1) (mean r2).

(** [np.argmin]: the index of the first [nan] if there is one, else of the
    first minimum.  [best_i] is the index of [best], the least entry so far,
    and [i] the index of the head of [l]. *)
Fixpoint argmin_from (best_i : nat) (best : option R) (i : nat)
         (l : list (option R)) : nat :=
  match best with
  | None => best_i
  | Some b =>
      match l with
      | [] => best_i
      | None :: _ => i
      | Some v :: l' =>
          if Rltb v b then argmin_from i (Some v) (S i) l'
          else argmin_from best_i best (S i) l'
      end
  end.

(** numpy raises on an empty sequence; the models call it on two entries. *)
Definition argmin (l : list (option R)) : nat :=
  match l with
  | [] => 0%nat
  | x :: l' => argmin_from 0 x 1 l'
  end.

End np.

(** ** Colloids *)

(** Modelled from the spec: the class [Colloid] of
    [swarmrl.models.interaction_model] is not among the sources; the models
    read its attributes [pos] and [director], two arrays of shape (3,). *)
Record Colloid : Type := mkColloid { pos : vec3; director : vec3 }.

(** ** Module-level functions of [bechinger_models.py] *)

(** The body of the loop of [get_colloids_in_vision]. *)
Definition vision_loop_body (my_pos my_director : vec3)
           (vision_half_angle : R) (vision_range : ereal)
           (colls_in_vision : list Colloid) (other_p : Colloid)
  : list Colloid :=
  let dist := np.sub (pos other_p) my_pos in
  let dist_norm := np.linalg_norm dist in
  let in_range := lt_ereal dist_norm vision_range in
  let in_front :=
    nan_ltb
      (np.arccos (np.dot_nan (np.div dist dist_norm) (Some my_director)))
      vision_half_angle in
  if in_front && in_range then colls_in_vision ++ [other_p]
  else colls_in_vision.

Definition get_colloids_in_vision (coll : Colloid) (other_coll : list Colloid)
           (vision_half_angle : R) (vision_range : ereal) : list Colloid :=
  let my_pos := np.array (pos coll) in
  let my_director := director coll in
  fold_left (vision_loop_body my_pos my_director vision_half_angle vision_range)
            other_coll [].

Definition angle_from_vector (vec : vec3) : R := np.arctan2 (vy vec) (vx vec).

Definition vector_from_angle (angle : R) : vec3 :=
  V3 (cos angle) (sin angle) 0.

(** ** class Lavergne2019 *)

Module Lavergne2019.

(** The attributes set by [__init__]. *)
Record t : Type := mk {
  vision_half_angle : R;
  act_force : R;
  perception_threshold : R
}.

(** [__init__] with its default arguments. *)
Definition init_default : t := mk (PI / 2) 1 1.

(** The body of the perception loop: [perception += 1 / (2 * np.pi * dist)]. *)
Definition perception_loop_body (my_pos : vec3) (perception : R)
           (coll : Colloid) : R :=
  let dist := np.linalg_norm (np.sub my_pos (pos coll)) in
  perception + 1 / (2 * PI * dist).

(** [calc_force]; [None] is the [nan] array that the division by the norm of
    a zero director gives. *)
Definition calc_force (self : t) (colloid : Colloid)
           (other_colloids : list Colloid) : option vec3 :=
  let colls_in_vision :=
    get_colloids_in_vision colloid other_colloids (vision_half_angle self)
                           PInf in
  let my_pos := np.copy (pos colloid) in
  let perception := fold_left (perception_loop_body my_pos) colls_in_vision 0 in
  if Rgeb perception (perception_threshold self) then
    let my_director := np.copy (director colloid) in
    np.div (np.scale (act_force self) my_director) (np.linalg_norm my_director)
  else Some np.zeros3.

Definition calc_torque (self : t) (colloid : Colloid)
           (other_colloids : list Colloid) : vec3 :=
  np.zeros3.

End Lavergne2019.

(** ** class Baeuerle2020 *)

Module Baeuerle2020.

Record t : Type := mk {
  act_force : R;
  detection_radius_position : ereal;
  detection_radius_orientation : ereal;
  vision_half_angle : R;
  angular_deviation : R
}.

Definition init_default : t := mk 1 (Fin 1) (Fin 1) (PI / 2) 1.

Definition _calc_force (self : t) (colloid : Colloid)
           (other_colloids : list Colloid) : vec3 :=
  let colls_in_vision_pos :=
    get_colloids_in_vision colloid other_colloids (vision_half_angle self)
                           (detection_radius_position self) in
  if (length colls_in_vision_pos =? 0)%nat then np.zeros3
  else
    let com := np.mean_axis1 (np.stack_axis1 (map pos colls_in_vision_pos)) in
    let to_com := np.sub com (pos colloid) in
    let to_com_angle := angle_from_vector to_com in
    let colls_in_vision_orientation :=
      get_colloids_in_vision colloid other_colloids (vision_half_angle self)
                             (detection_radius_orientation self) in
    if (length colls_in_vision_orientation =? 0)%nat then np.zeros3
    else
      let mean_orientation_in_vision :=
        np.mean_axis1
          (np.stack_axis1 (map director colls_in_vision_orientation)) in
      let mean_orientation_in_vision :=
        np.div mean_orientation_in_vision
               (np.linalg_norm mean_orientation_in_vision) in
      let new_angle_choices :=
        [to_com_angle + angular_deviation self;
         to_com_angle - angular_deviation self] in
      let new_orientation_choices := map vector_from_angle new_angle_choices in
      let angle_deviations :=
        map (fun new_orient =>
               np.arccos
                 (np.dot_nan (Some new_orient) mean_orientation_in_vision))
            new_orientation_choices in
      let new_orientation :=
        nth (np.argmin angle_deviations) new_orientation_choices np.zeros3 in
      np.scale (act_force self) new_orientation.

Definition calc_force (self : t) (colloid : Colloid)
           (other_colloids : list Colloid) : vec3 :=
  _calc_force self colloid other_colloids.

(** [None] is the [nan] array of the division by a zero norm. *)
Definition calc_new_direction (self : t) (colloid : Colloid)
           (other_colloids : list Colloid) : option vec3 :=
  let force := _calc_force self colloid other_colloids in
  np.div force (np.linalg_norm force).

Definition calc_torque (self : t) (colloid : Colloid)
           (other_colloids : list Colloid) : vec3 :=
  np.zeros3.

End Baeuerle2020.

(** ** The vision cone in the words of the specification *)

(** The distance [d = ||c.pos - coll.pos||]. *)
Definition distance (coll c : Colloid) : R :=
  np.linalg_norm (np.sub (pos c) (pos coll)).

(** The angle [arccos(((c.pos - coll.pos) / d) . coll.director)]. *)
Definition angle_to (coll c : Colloid) : R :=
  let d := distance coll c in
  let v := np.sub (pos c) (pos coll) in
  acos (np.dot (V3 (vx v / d) (vy v / d) (vz v / d)) (director coll)).

(** [c] is nearer than the range and inside the half angle. *)
Definition in_vision_spec (coll : Colloid) (vision_half_angle : R)
           (vision_range : ereal) (c : Colloid) : bool :=
  lt_ereal (distance coll c) vision_range
  && Rltb (angle_to coll c) vision_half_angle.

(** What the loop of [get_colloids_in_vision] tests on [other_p], the
    condition [in_front and in_range] of the source, for the position and the
    director that the loop holds in [my_pos] and [my_director]. *)
Definition in_front_and_in_range_from (my_pos my_director : vec3)
           (vision_half_angle : R) (vision_range : ereal)
           (other_p : Colloid) : bool :=
  let dist := np.sub (pos other_p) my_pos in
  let dist_norm := np.linalg_norm dist in
  nan_ltb
    (np.arccos (np.dot_nan (np.div dist dist_norm) (Some my_director)))
    vision_half_angle
  && lt_ereal dist_norm vision_range.

(** The same for the focal colloid [coll]. *)
Definition in_front_and_in_range (coll : Colloid) (vision_half_angle : R)
           (vision_range : ereal) (other_p : Colloid) : bool :=
  in_front_and_in_range_from (np.array (pos coll)) (director coll)
                             vision_half_angle vision_range other_p.

(** ** The force rules in the words of the specification *)

(** The sum of a list of reals. *)
Definition Rsum (l : list R) : R := fold_right Rplus 0 l.

(** [v] scaled to unit Euclidean norm; there is none for the zero array. *)
Definition unit_vector (v : vec3) : option vec3 := np.div v (np.linalg_norm v).

(** The perception of Lavergne et al.: the sum over the colloids in the
    vision cone, of unbounded range, of [1 / (2 pi d)]. *)
Definition perception_spec (vision_half_angle : R) (colloid : Colloid)
           (other_colloids : list Colloid) : R :=
  Rsum (map (fun c => 1 / (2 * PI * distance colloid c))
            (get_colloids_in_vision colloid other_colloids
                                    vision_half_angle PInf)).

Definition vec_add (a b : vec3) : vec3 :=
  V3 (vx a + vx b) (vy a + vy b) (vz a + vz b).

Definition vec_sum (l : list vec3) : vec3 := fold_right vec_add np.zeros3 l.

(** The arithmetic mean of a list of arrays. *)
Definition vec_mean (l : list vec3) : vec3 :=
  np.scale (1 / INR (length l)) (vec_sum l).

(** The arccos of the dot product of the planar unit vector of angle [a]
    with [u]. *)
Definition deviation (a : R) (u : vec3) : R :=
  acos (np.dot (V3 (cos a) (sin a) 0) u).

(** Whichever of [a1] and [a2] has the smaller deviation from [u], the first
    when the two are equal. *)
Definition smaller_deviation (a1 a2 : R) (u : vec3) : R :=
  if Rleb (deviation a1 u) (deviation a2 u) then a1 else a2.

(** ** class MLModel *)

Module MLModel.

(** Modelled from the spec: the class [Action] of
    [swarmrl.models.interaction_model] is not among the sources.  The model
    builds its actions from the keyword arguments [force] and [torque]; an
    argument that is left out keeps the default of the class, written [None]
    here. *)
Record Action : Type := mkAction {
  force : option R;
  torque : option vec3
}.

Definition translate : Action := mkAction (Some 10) None.
Definition rotate_clockwise : Action :=
  mkAction None (Some (V3 0 0 (1 / 10))).
Definition rotate_counter_clockwise : Action :=
  mkAction None (Some (V3 0 0 (- (1 / 10)))).
Definition do_nothing : Action := mkAction None None.

(** [self.actions], a dict in insertion order. *)
Definition actions : list (string * Action) :=
  [ ("RotateClockwise"%string, rotate_clockwise);
    ("Translate"%string, translate);
    ("RotateCounterClockwise"%string, rotate_counter_clockwise);
    ("DoNothing"%string, do_nothing) ].

(** [list(d)]: the keys of a dict, in insertion order. *)
Definition keys {V : Type} (d : list (string * V)) : list string :=
  map fst d.

(** [d[k]]; [None] is a KeyError. *)
Fixpoint getitem {V : Type} (d : list (string * V)) (k : string) : option V :=
  match d with
  | [] => None
  | (k', v) :: d' => if String.eqb k k' then Some v else getitem d' k
  end.

(** A colloid object is known by its identity; its attributes are found in
    the object store. *)
Definition ref : Type := nat.

(** [c is not colloid]. *)
Definition is_not (c colloid : ref) : bool := negb (Nat.eqb c colloid).

(** [[c for c in colloids if c is not colloid]]. *)
Definition other_colloids_of (colloids : list ref) (colloid : ref)
  : list ref :=
  filter (fun c => is_not c colloid) colloids.

(** [torch.nn.functional.softmax] over the last dimension. *)
Definition softmax (logits : list R) : list R :=
  let z := Rsum (map exp logits) in
  map (fun x => exp x / z) logits.

Section Collaborators.

(** The feature vectors of the observable. *)
Variable feature : Type.
(** The state of the random generator of torch. *)
Variable generator : Type.
(** [self.observable.compute_observable], given the object store. *)
Variable compute_observable : (ref -> Colloid) -> ref -> list ref -> feature.
(** [self.model], the network: from a feature vector to the logits. *)
Variable model : feature -> list R.
(** [Categorical(probs).sample().item()]. *)
Variable sample : list R -> generator -> nat * generator.

(** The state of the loop of [calc_action]: the list [actions], the random
    generator, and the calls made to the observable so far, each with the
    focal colloid and the list of the others. *)
Record loop_state : Type := mkState {
  actions_so_far : list Action;
  gen : generator;
  observable_calls : list (ref * list ref)
}.

(** One iteration; [None] is an IndexError or KeyError of the last line. *)
Definition loop_body (store : ref -> Colloid) (colloids : list ref)
           (st : loop_state) (colloid : ref) : option loop_state :=
  let other_colloids := other_colloids_of colloids colloid in
  let feature_vector := compute_observable store colloid other_colloids in
  let action_probabilities := softmax (model feature_vector) in
  let '(action_idx, g) := sample action_probabilities (gen st) in
  match nth_error (keys actions) action_idx with
  | None => None
  | Some key =>
      match getitem actions key with
      | None => None
      | Some action =>
          Some (mkState (actions_so_far st ++ [action]) g
                        (observable_calls st ++ [(colloid, other_colloids)]))
      end
  end.

(** A [for] loop whose body may raise. *)
Fixpoint for_each (body : loop_state -> ref -> option loop_state)
         (l : list ref) (st : loop_state) : option loop_state :=
  match l with
  | [] => Some st
  | x :: l' =>
      match body st x with
      | None => None
      | Some st' => for_each body l' st'
      end
  end.

Definition calc_action (store : ref -> Colloid) (colloids : list ref)
           (g : generator) : option loop_state :=
  for_each (loop_body store colloids) colloids (mkState [] g []).

(** The indices sampled for the colloids of [l], one after the other, each
    from the softmax of the network output on the observable of the colloid
    among [colloids]. *)
Fixpoint sampled_indices (store : ref -> Colloid) (colloids l : list ref)
         (g : generator) : list nat :=
  match l with
  | [] => []
  | colloid :: l' =>
      let others := other_colloids_of colloids colloid in
      let probabilities :=
        softmax (model (compute_observable store colloid others)) in
      let '(idx, g') := sample probabilities g in
      idx :: sampled_indices store colloids l' g'
  end.

(** The random generator after the samples for the colloids of [l]. *)
Fixpoint generator_after (store : ref -> Colloid) (colloids l : list ref)
         (g : generator) : generator :=
  match l with
  | [] => g
  | colloid :: l' =>
      let others := other_colloids_of colloids colloid in
      let probabilities :=
        softmax (model (compute_observable store colloid others)) in
      let '(_, g') := sample probabilities g in
      generator_after store colloids l' g'
  end.

End Collaborators.

Arguments actions_so_far {generator} _.
Arguments gen {generator} _.
Arguments observable_calls {generator} _.
Arguments calc_action {feature generator} _ _ _ _ _ _.
Arguments sampled_indices {feature generator} _ _ _ _ _ _ _.
Arguments generator_after {feature generator} _ _ _ _ _ _ _.

(** The fixed table of the four actions, in the order of the dict. *)
Definition action_table : list Action :=
  [rotate_clockwise; translate; rotate_counter_clockwise; do_nothing].

End MLModel.

(** ** The models over a store of arrays

    The functions above compute on values.  Here the same code runs over the
    Python object store: a colloid is an object whose attributes [pos] and
    [director] are bound to arrays, an array of shape (3,) lives at an
    address, every numpy operation that returns an array allocates a new
    one, [a = b] makes [a] an alias of [b], and [a /= s] overwrites the array
    of [a] in place.  The attributes of the model object [self] are part of
    the state. *)

Module Imp.

Definition addr : Type := nat.

(** The content of an array of shape (3,): finite entries, or [nan]. *)
Definition cell : Type := option vec3.

(** A colloid object: the addresses its attributes are bound to. *)
Record colloid_obj : Type := mkObj { pos_at : addr; director_at : addr }.

(** A reference to a colloid object. *)
Definition ref : Type := nat.

Record state (P : Type) : Type := mkSt {
  arrays : list cell;
  objects : ref -> colloid_obj;
  self : P
}.

Arguments mkSt {P} _ _ _.
Arguments arrays {P} _.
Arguments objects {P} _.
Arguments self {P} _.

(** A computation over the store. *)
Definition M (P A : Type) : Type := state P -> A * state P.

Definition ret {P A : Type} (x : A) : M P A := fun st => (x, st).

Definition bind {P A B : Type} (m : M P A) (k : A -> M P B) : M P B :=
  fun st => let '(x, st') := m st in k x st'.

Notation "x <- m ;; k" := (bind m (fun x => k))
  (at level 61, m at next level, right associativity).
Notation "m ;;; k" := (bind m (fun _ => k))
  (at level 61, right associativity).

(** Replace the entry at [a]. *)
Fixpoint set_nth (a : nat) (v : cell) (l : list cell) : list cell :=
  match l, a with
  | [], _ => []
  | _ :: l', O => v :: l'
  | x :: l', S a' => x :: set_nth a' v l'
  end.

Section Ops.

Context {P : Type}.

(** The store [st] with the arrays [ext] allocated after its own. *)
Definition grow (st : state P) (ext : list cell) : state P :=
  mkSt (arrays st ++ ext) (objects st) (self st).

(** A new array with content [v], at the next free address. *)
Definition new_array (v : cell) : M P addr :=
  fun st => (length (arrays st), grow st [v]).

Definition read (a : addr) : M P cell :=
  fun st => (nth a (arrays st) None, st).

Definition write (a : addr) (v : cell) : M P unit :=
  fun st => (tt, mkSt (set_nth a v (arrays st)) (objects st) (self st)).

(** [self.attribute]. *)
Definition getattr {A : Type} (attribute : P -> A) : M P A :=
  fun st => (attribute (self st), st).

(** [colloid.pos] and [colloid.director]: the array the attribute is bound
    to, not a copy. *)
Definition attr_pos (colloid : ref) : M P addr :=
  fun st => (pos_at (objects st colloid), st).

Definition attr_director (colloid : ref) : M P addr :=
  fun st => (director_at (objects st colloid), st).

(** A [for] loop that threads an accumulator. *)
Fixpoint foldM {A B : Type} (body : A -> B -> M P A) (l : list B) (acc : A)
  : M P A :=
  match l with
  | [] => ret acc
  | x :: l' => acc' <- body acc x ;; foldM body l' acc'
  end.

(** A list comprehension. *)
Fixpoint mapM {A B : Type} (f : A -> M P B) (l : list A) : M P (list B) :=
  match l with
  | [] => ret []
  | x :: l' => y <- f x ;; ys <- mapM f l' ;; ret (y :: ys)
  end.

(** *** numpy over the store *)

Definition lift1 {A B : Type} (f : A -> B) (x : option A) : option B :=
  match x with
  | Some v => Some (f v)
  | None => None
  end.

Definition lift2 {A B C : Type} (f : A -> B -> C) (x : option A)
           (y : option B) : option C :=
  match x, y with
  | Some u, Some v => Some (f u v)
  | _, _ => None
  end.

Definition np_zeros : M P addr := new_array (Some np.zeros3).

Definition np_array (a : addr) : M P addr :=
  v <- read a ;; new_array (lift1 np.array v).

Definition np_copy (a : addr) : M P addr :=
  v <- read a ;; new_array (lift1 np.copy v).

Definition np_sub (a b : addr) : M P addr :=
  u <- read a ;; v <- read b ;; new_array (lift2 np.sub u v).

Definition np_linalg_norm (a : addr) : M P (option R) :=
  v <- read a ;; ret (lift1 np.linalg_norm v).

Definition div_nan (v : cell) (s : option R) : cell :=
  match v, s with
  | Some u, Some r => np.div u r
  | _, _ => None
  end.

(** [a / s]: a new array. *)
Definition np_div (a : addr) (s : option R) : M P addr :=
  v <- read a ;; new_array (div_nan v s).

(** [a /= s]: the array of [a] is overwritten. *)
Definition np_idiv (a : addr) (s : option R) : M P unit :=
  v <- read a ;; write a (div_nan v s).

Definition np_dot (a b : addr) : M P (option R) :=
  u <- read a ;; v <- read b ;; ret (np.dot_nan u v).

(** [s * a]: a new array. *)
Definition np_scale (s : R) (a : addr) : M P addr :=
  v <- read a ;; new_array (lift1 (np.scale s) v).

(** All the contents, when none is [nan]. *)
Fixpoint all_finite (l : list cell) : option (list vec3) :=
  match l with
  | [] => Some []
  | None :: _ => None
  | Some v :: l' => lift1 (cons v) (all_finite l')
  end.

(** [np.mean(np.stack(arrays, axis=1), axis=1)]: the stacked matrix is a
    temporary, the mean a new array. *)
Definition np_mean_stack (l : list addr) : M P addr :=
  vs <- mapM read l ;;
  new_array (lift1 (fun m => np.mean_axis1 (np.stack_axis1 m)) (all_finite vs)).

(** *** The module-level functions *)

Definition ltb_nan_ereal (x : option R) (y : ereal) : bool :=
  match x with
  | Some v => lt_ereal v y
  | None => false
  end.

Definition vision_loop_body (my_pos my_director : addr)
           (vision_half_angle : R) (vision_range : ereal)
           (colls_in_vision : list ref) (other_p : ref) : M P (list ref) :=
  other_pos <- attr_pos other_p ;;
  dist <- np_sub other_pos my_pos ;;
  dist_norm <- np_linalg_norm dist ;;
  let in_range := ltb_nan_ereal dist_norm vision_range in
  direction <- np_div dist dist_norm ;;
  cosine <- np_dot direction my_director ;;
  let in_front := nan_ltb (np.arccos cosine) vision_half_angle in
  ret (if in_front && in_range then colls_in_vision ++ [other_p]
       else colls_in_vision).

Definition get_colloids_in_vision (coll : ref) (other_coll : list ref)
           (vision_half_angle : R) (vision_range : ereal) : M P (list ref) :=
  coll_pos <- attr_pos coll ;;
  my_pos <- np_array coll_pos ;;
  my_director <- attr_director coll ;;
  foldM (vision_loop_body my_pos my_director vision_half_angle vision_range)
        other_coll [].

Definition angle_from_vector (vec : addr) : M P (option R) :=
  v <- read vec ;; ret (lift1 angle_from_vector v).

Definition vector_from_angle (angle : option R) : M P addr :=
  new_array (lift1 vector_from_angle angle).

End Ops.

(** *** class Lavergne2019 *)

Module Lavergne2019.

Definition perception_loop_body (my_pos : addr) (perception : option R)
           (coll : ref) : M Lavergne2019.t (option R) :=
  coll_pos <- attr_pos coll ;;
  difference <- np_sub my_pos coll_pos ;;
  dist <- np_linalg_norm difference ;;
  ret (lift2 (fun p d => p + 1 / (2 * PI * d)) perception dist).

Definition calc_force (colloid : ref) (other_colloids : list ref)
  : M Lavergne2019.t addr :=
  vision_half_angle <- getattr Lavergne2019.vision_half_angle ;;
  colls_in_vision <-
    get_colloids_in_vision colloid other_colloids vision_half_angle PInf ;;
  colloid_pos <- attr_pos colloid ;;
  my_pos <- np_copy colloid_pos ;;
  perception <- foldM (perception_loop_body my_pos) colls_in_vision (Some 0) ;;
  perception_threshold <- getattr Lavergne2019.perception_threshold ;;
  if match perception with
     | Some p => Rgeb p perception_threshold
     | None => false
     end
  then
    colloid_director <- attr_director colloid ;;
    my_director <- np_copy colloid_director ;;
    act_force <- getattr Lavergne2019.act_force ;;
    scaled <- np_scale act_force my_director ;;
    norm <- np_linalg_norm my_director ;;
    np_div scaled norm
  else np_zeros.

Definition calc_torque (colloid : ref) (other_colloids : list ref)
  : M Lavergne2019.t addr :=
  np_zeros.

End Lavergne2019.

(** *** class Baeuerle2020 *)

Module Baeuerle2020.

Definition _calc_force (colloid : ref) (other_colloids : list ref)
  : M Baeuerle2020.t addr :=
  vision_half_angle <- getattr Baeuerle2020.vision_half_angle ;;
  detection_radius_position <-
    getattr Baeuerle2020.detection_radius_position ;;
  colls_in_vision_pos <-
    get_colloids_in_vision colloid other_colloids vision_half_angle
                           detection_radius_position ;;
  if (length colls_in_vision_pos =? 0)%nat then np_zeros
  else
    positions <- mapM attr_pos colls_in_vision_pos ;;
    com <- np_mean_stack positions ;;
    colloid_pos <- attr_pos colloid ;;
    to_com <- np_sub com colloid_pos ;;
    to_com_angle <- angle_from_vector to_com ;;
    detection_radius_orientation <-
      getattr Baeuerle2020.detection_radius_orientation ;;
    colls_in_vision_orientation <-
      get_colloids_in_vision colloid other_colloids vision_half_angle
                             detection_radius_orientation ;;
    if (length colls_in_vision_orientation =? 0)%nat then np_zeros
    else
      directors <- mapM attr_director colls_in_vision_orientation ;;
      mean_orientation_in_vision <- np_mean_stack directors ;;
      norm <- np_linalg_norm mean_orientation_in_vision ;;
      np_idiv mean_orientation_in_vision norm ;;;
      angular_deviation <- getattr Baeuerle2020.angular_deviation ;;
      let new_angle_choices :=
        [lift1 (fun a => a + angular_deviation) to_com_angle;
         lift1 (fun a => a - angular_deviation) to_com_angle] in
      new_orientation_choices <- mapM vector_from_angle new_angle_choices ;;
      angle_deviations <-
        mapM (fun new_orient =>
                cosine <- np_dot new_orient mean_orientation_in_vision ;;
                ret (np.arccos cosine))
             new_orientation_choices ;;
      let new_orientation :=
        nth (np.argmin angle_deviations) new_orientation_choices O in
      act_force <- getattr Baeuerle2020.act_force ;;
      np_scale act_force new_orientation.

Definition calc_force (colloid : ref) (other_colloids : list ref)
  : M Baeuerle2020.t addr :=
  _calc_force colloid other_colloids.

Definition calc_torque (colloid : ref) (other_colloids : list ref)
  : M Baeuerle2020.t addr :=
  np_zeros.

End Baeuerle2020.

(** The store keeps what was there: the attributes of [self], the
    attributes of the colloid objects, and the content of every array below
    address [n]. *)
Definition keeps {P : Type} (n : nat) (st st' : state P) : Prop :=
  self st' = self st
  /\ objects st' = objects st
  /\ (length (arrays st) <= length (arrays st'))%nat
  /\ forall a, (a < n)%nat -> nth a (arrays st') None = nth a (arrays st) None.

(** The arrays of the colloid [r] are allocated. *)
Definition allocated {P : Type} (st : state P) (r : ref) : Prop :=
  (pos_at (objects st r) < length (arrays st))%nat
  /\ (director_at (objects st r) < length (arrays st))%nat.

(** The position and the director of the colloid [r] in the store. *)
Definition pos_of {P : Type} (st : state P) (r : ref) : cell :=
  nth (pos_at (objects st r)) (arrays st) None.

Definition director_of {P : Type} (st : state P) (r : ref) : cell :=
  nth (director_at (objects st r)) (arrays st) None.

(** The array at address [a] is allocated and has content [v]. *)
Definition holds {P : Type} (st : state P) (a : addr) (v : cell) : Prop :=
  nth_error (arrays st) a = Some v.

(** The object [r] of the store is the colloid [c]: its attributes are bound
    to allocated arrays with the position and the director of [c]. *)
Definition represents {P : Type} (st : state P) (r : ref) (c : Colloid)
  : Prop :=
  holds st (pos_at (objects st r)) (Some (pos c))
  /\ holds st (director_at (objects st r)) (Some (director c)).

(** From a store with at least [n] arrays, [m] keeps the store below [n]
    and returns a result that satisfies [Q]. *)
Definition spec {P A : Type} (n : nat) (m : M P A) (Q : A -> Prop) : Prop :=
  forall st,
    (n <= length (arrays st))%nat ->
    keeps n st (snd (m st)) /\ Q (fst (m st)).

(** From [st] to [st'] the attributes of the model, the attributes of the
    colloid objects, and the positions and directors of the colloids [rs]
    are unchanged. *)
Definition unchanged {P : Type} (rs : list ref) (st st' : state P) : Prop :=
  self st' = self st
  /\ objects st' = objects st
  /\ forall r,
      In r rs ->
      pos_of st' r = pos_of st r /\ director_of st' r = director_of st r.

End Imp.

(** ** Example inputs *)

(** A colloid at the origin that looks along the x axis. *)
Definition focal : Colloid := mkColloid (V3 0 0 0) (V3 1 0 0).

(** A colloid one unit ahead of [focal], with the same director. *)
Definition neighbour : Colloid := mkColloid (V3 1 0 0) (V3 1 0 0).

(** A [Baeuerle2020] that detects within two units. *)
Definition baeuerle_example : Baeuerle2020.t :=
  Baeuerle2020.mk 1 (Fin 2) (Fin 2) (PI / 2) 1.

(** A store with the arrays of [focal], at addresses 0 and 1, and of
    [neighbour], at addresses 2 and 3; object 0 is [focal] and every other
    object is [neighbour]. *)
Definition store_example {P : Type} (self : P) : Imp.state P :=
  Imp.mkSt [Some (pos focal); Some (director focal);
            Some (pos neighbour); Some (director neighbour)]
           (fun r => if Nat.eqb r 0 then Imp.mkObj 0%nat 1%nat
                     else Imp.mkObj 2%nat 3%nat)
           self.

(** The colloid that each object of [store_example] stands for. *)
Definition store_example_value (r : Imp.ref) : Colloid :=
  if Nat.eqb r 0 then focal else neighbour.

(** An [MLModel] whose observable sees nothing, whose network gives four
    equal logits, and whose sampler takes the last category. *)
Definition observable_example (store : MLModel.ref -> Colloid)
           (colloid : MLModel.ref) (others : list MLModel.ref) : unit := tt.

Definition network_example (f : unit) : list R := [0; 0; 0; 0].

Definition sample_last (probs : list R) (g : unit) : nat * unit :=
  (Nat.pred (length probs), g).

(** Two colloid objects, 0 and 1, with the same position and director. *)
Definition twins (r : MLModel.ref) : Colloid := focal.

(** ** Notions for the further properties *)

(** [a <= b] on extended reals. *)
Definition le_ereal (a b : ereal) : Prop :=
  match a, b with
  | Fin x, Fin y => x <= y
  | _, PInf => True
  | PInf, Fin _ => False
  end.

(** The colloid [c] moved by the vector [t]; its director is kept. *)
Definition translate (t : vec3) (c : Colloid) : Colloid :=
  mkColloid (vec_add (pos c) t) (director c).

(** The force of [Baeuerle2020] once the vector [to_com] to the centre of
    mass and the mean director of the neighbours are known. *)
Definition steer (act_force angular_deviation : R)
           (to_com mean_director : vec3) : vec3 :=
  let to_com_angle := np.arctan2 (vy to_com) (vx to_com) in
  let a1 := to_com_angle + angular_deviation in
  let a2 := to_com_angle - angular_deviation in
  match unit_vector mean_director with
  | Some u =>
      np.scale act_force (vector_from_angle (smaller_deviation a1 a2 u))
  | None => np.scale act_force (vector_from_angle a1)
  end.

(** The model [self] with another [act_force]. *)
Definition with_act_force (self : Baeuerle2020.t) (act_force : R)
  : Baeuerle2020.t :=
  Baeuerle2020.mk act_force
                  (Baeuerle2020.detection_radius_position self)
                  (Baeuerle2020.detection_radius_orientation self)
                  (Baeuerle2020.vision_half_angle self)
                  (Baeuerle2020.angular_deviation self).

(** The content of the array that a call over the store has returned. *)
Definition result_content {P : Type} (run : Imp.addr * Imp.state P)
  : option Imp.cell :=
  nth_error (Imp.arrays (snd run)) (fst run).

(** The colloids of [store_example] laid out at other addresses, after an
    array that belongs to no colloid. *)
Definition store_example_moved {P : Type} (self : P) : Imp.state P :=
  Imp.mkSt [Some (V3 7 7 7); Some (director neighbour);
            Some (pos neighbour); Some (director focal); Some (pos focal)]
           (fun r => if Nat.eqb r 0 then Imp.mkObj 4%nat 3%nat
                     else Imp.mkObj 2%nat 1%nat)
           self.

(** A [Lavergne2019] with a threshold of zero and a [Baeuerle2020] without
    angular deviation. *)
Definition lavergne_eager : Lavergne2019.t := Lavergne2019.mk (PI / 2) 1 0.

Definition baeuerle_straight : Baeuerle2020.t :=
  Baeuerle2020.mk 1 (Fin 2) (Fin 2) (PI / 2) 0.

(** * Properties *)

(** ** Comparisons and arrays *)

Lemma Rltb_true (a b : R) : Rltb a b = true <-> a < b.
Proof. unfold Rltb; destruct (Rlt_dec a b); split; intros; try easy. Qed.

Lemma Rltb_false (a b : R) : Rltb a b = false <-> ~ a < b.
Proof. unfold Rltb; destruct (Rlt_dec a b); split; intros; try easy. Qed.

Lemma Rleb_true (a b : R) : Rleb a b = true <-> a <= b.
Proof. unfold Rleb; destruct (Rle_dec a b); split; intros; try easy. Qed.

Lemma Rgeb_true (a b : R) : Rgeb a b = true <-> a >= b.
Proof. unfold Rgeb; destruct (Rge_dec a b); split; intros; try easy. Qed.

Lemma vec3_eq (a b : vec3) :
  vx a = vx b -> vy a = vy b -> vz a = vz b -> a = b.
Proof. destruct a, b; simpl; intros; subst; reflexivity. Qed.


Lemma Rleb_false (a b : R) : Rleb a b = false <-> ~ a <= b.
Proof. unfold Rleb; destruct (Rle_dec a b); split; intros; try easy. Qed.

Lemma Rgeb_false (a b : R) : Rgeb a b = false <-> ~ a >= b.
Proof. unfold Rgeb; destruct (Rge_dec a b); split; intros; try easy. Qed.

Lemma dot_self_nonneg (a : vec3) : 0 <= np.dot a a.
Proof. unfold np.dot; nra. Qed.


Lemma norm_sqr (a : vec3) : np.linalg_norm a * np.linalg_norm a = np.dot a a.
Proof. unfold np.linalg_norm; apply sqrt_sqrt, dot_self_nonneg. Qed.

Lemma norm_zero_iff (a : vec3) : np.linalg_norm a = 0 <-> a = np.zeros3.
Proof.
  split.
  - intros H. pose proof (norm_sqr a) as Hs. rewrite H in Hs.
    unfold np.dot in Hs. destruct a as [x y z]; simpl in *.
    assert (x = 0) by nra. assert (y = 0) by nra. assert (z = 0) by nra.
    subst; reflexivity.
  - intros ->. unfold np.linalg_norm, np.zeros3; simpl.
    replace (0 * 0 + 0 * 0 + 0 * 0) with 0 by ring. apply sqrt_0.
Qed.

Lemma norm_sub_sym (a b : vec3) :
  np.linalg_norm (np.sub a b) = np.linalg_norm (np.sub b a).
Proof. unfold np.linalg_norm, np.sub; simpl; f_equal; ring. Qed.

(** Cauchy-Schwarz in three dimensions. *)
Lemma dot_cauchy_schwarz (a b : vec3) :
  np.dot a b * np.dot a b <= np.dot a a * np.dot b b.
Proof.
  unfold np.dot; destruct a as [a0 a1 a2], b as [b0 b1 b2]; simpl.
  pose proof (Rle_0_sqr (a0 * b1 - a1 * b0)) as H01.
  pose proof (Rle_0_sqr (a0 * b2 - a2 * b0)) as H02.
  pose proof (Rle_0_sqr (a1 * b2 - a2 * b1)) as H12.
  unfold Rsqr in *. lra.
Qed.

Lemma dot_unit_bounds (a b : vec3) :
  np.dot a a <= 1 -> np.dot b b <= 1 -> -1 <= np.dot a b <= 1.
Proof.
  intros Ha Hb. pose proof (dot_cauchy_schwarz a b) as H.
  pose proof (dot_self_nonneg a). pose proof (dot_self_nonneg b).
  assert (np.dot a b * np.dot a b <= 1) by nra. nra.
Qed.

(** ** [get_colloids_in_vision] *)

Lemma array_id (a : vec3) : np.array a = a.
Proof. destruct a; reflexivity. Qed.

Lemma copy_id (a : vec3) : np.copy a = a.
Proof. destruct a; reflexivity. Qed.

(** The loop appends, in order, the entries that pass the test. *)
Lemma vision_loop_filter (coll : Colloid) (vha : R) (vr : ereal)
      (l acc : list Colloid) :
  fold_left (vision_loop_body (np.array (pos coll)) (director coll) vha vr)
            l acc
  = acc ++ filter (in_front_and_in_range coll vha vr) l.
Proof.
  revert acc; induction l as [|c l IH]; intros acc; cbn [fold_left filter].
  - now rewrite app_nil_r.
  - rewrite IH.
    unfold vision_loop_body, in_front_and_in_range,
      in_front_and_in_range_from.
    destruct (_ && _); [now rewrite <- app_assoc | reflexivity].
Qed.

Lemma get_colloids_in_vision_filter (coll : Colloid) (l : list Colloid)
      (vha : R) (vr : ereal) :
  get_colloids_in_vision coll l vha vr
  = filter (in_front_and_in_range coll vha vr) l.
Proof. unfold get_colloids_in_vision. now rewrite vision_loop_filter. Qed.

Lemma div_nonzero (a : vec3) (s : R) :
  s <> 0 -> np.div a s = Some (V3 (vx a / s) (vy a / s) (vz a / s)).
Proof. intros H; unfold np.div; destruct (Req_dec_T s 0); easy. Qed.

Lemma div_zero (a : vec3) : np.div a 0 = None.
Proof. unfold np.div; destruct (Req_dec_T 0 0); easy. Qed.

(** An array over its own non-zero norm has unit length. *)
Lemma dot_normalised (a : vec3) :
  np.linalg_norm a <> 0 ->
  let n := np.linalg_norm a in
  np.dot (V3 (vx a / n) (vy a / n) (vz a / n))
         (V3 (vx a / n) (vy a / n) (vz a / n)) = 1.
Proof.
  intros Hn n. pose proof (norm_sqr a) as Hs. fold n in Hs.
  unfold np.dot in *; simpl. field_simplify_eq; [lra | exact Hn].
Qed.

Lemma unit_norm_dot (a : vec3) : np.linalg_norm a = 1 -> np.dot a a = 1.
Proof. intros H. rewrite <- norm_sqr, H. ring. Qed.

Lemma arccos_in_domain (x : R) :
  -1 <= x <= 1 -> np.arccos (Some x) = Some (acos x).
Proof.
  intros [H1 H2]; unfold np.arccos.
  apply Rleb_true in H1, H2. now rewrite H1, H2.
Qed.

(** On a unit director and a non-zero distance the test of the source is the
    test of the specification. *)
Lemma in_front_and_in_range_spec (coll c : Colloid) (vha : R) (vr : ereal) :
  np.linalg_norm (director coll) = 1 ->
  distance coll c <> 0 ->
  in_front_and_in_range coll vha vr c = in_vision_spec coll vha vr c.
Proof.
  intros Hdir Hd.
  unfold in_front_and_in_range, in_front_and_in_range_from, in_vision_spec,
    angle_to.
  rewrite array_id. fold (distance coll c).
  rewrite div_nonzero by exact Hd. cbn [np.dot_nan].
  rewrite arccos_in_domain.
  - cbn [nan_ltb]. apply andb_comm.
  - apply dot_unit_bounds.
    + apply Req_le. exact (dot_normalised _ Hd).
    + apply Req_le, unit_norm_dot, Hdir.
Qed.


(** ** [Lavergne2019] *)

Lemma in_front_and_in_range_nonzero (coll c : Colloid) (vha : R) (vr : ereal) :
  in_front_and_in_range coll vha vr c = true -> distance coll c <> 0.
Proof.
  unfold in_front_and_in_range, in_front_and_in_range_from.
  rewrite array_id. fold (distance coll c).
  intros H Hz. rewrite Hz, div_zero in H. discriminate H.
Qed.

(** A colloid in vision is never at distance zero, so the perception loop
    divides by a non-zero number. *)
Lemma in_vision_distance_nonzero (coll : Colloid) (l : list Colloid)
      (vha : R) (vr : ereal) (c : Colloid) :
  In c (get_colloids_in_vision coll l vha vr) ->
  2 * PI * np.linalg_norm (np.sub (np.copy (pos coll)) (pos c)) <> 0.
Proof.
  rewrite get_colloids_in_vision_filter, filter_In. intros [_ H].
  apply in_front_and_in_range_nonzero in H. unfold distance in H.
  rewrite copy_id, norm_sub_sym. pose proof PI_RGT_0.
  intros Hz. apply Rmult_integral in Hz. destruct Hz; [lra | contradiction].
Qed.

Lemma perception_loop_sum (coll : Colloid) (l : list Colloid) (acc : R) :
  fold_left (Lavergne2019.perception_loop_body (np.copy (pos coll))) l acc
  = acc + Rsum (map (fun c => 1 / (2 * PI * distance coll c)) l).
Proof.
  revert acc; induction l as [|c l IH]; intros acc;
    cbn [fold_left map Rsum fold_right].
  - ring.
  - rewrite IH. unfold Lavergne2019.perception_loop_body.
    rewrite copy_id, norm_sub_sym. fold (distance coll c).
    fold (Rsum (map (fun c0 => 1 / (2 * PI * distance coll c0)) l)). ring.
Qed.

Lemma unit_vector_norm (v u : vec3) :
  unit_vector v = Some u -> np.linalg_norm u = 1.
Proof.
  unfold unit_vector, np.div.
  destruct (Req_dec_T _ 0) as [|Hn]; [discriminate|].
  intros [= <-]. unfold np.linalg_norm at 1.
  change (sqrt (np.dot (V3 (vx v / np.linalg_norm v) (vy v / np.linalg_norm v)
                           (vz v / np.linalg_norm v))
                       (V3 (vx v / np.linalg_norm v) (vy v / np.linalg_norm v)
                           (vz v / np.linalg_norm v))) = 1).
  rewrite (dot_normalised v Hn). apply sqrt_1.
Qed.



(** ** [Baeuerle2020] *)

Lemma fold_left_Rplus (l : list R) (acc : R) :
  fold_left Rplus l acc = acc + Rsum l.
Proof.
  revert acc; induction l as [|x l IH]; intros acc; simpl; [ring|].
  rewrite IH. ring.
Qed.

Lemma np_sum_Rsum (l : list R) : np.sum l = Rsum l.
Proof. unfold np.sum. rewrite fold_left_Rplus. ring. Qed.

Lemma Rsum_components (l : list vec3) :
  Rsum (map vx l) = vx (vec_sum l)
  /\ Rsum (map vy l) = vy (vec_sum l)
  /\ Rsum (map vz l) = vz (vec_sum l).
Proof.
  induction l as [|v l (IHx & IHy & IHz)]; simpl; [now repeat split|].
  rewrite IHx, IHy, IHz. now repeat split.
Qed.

(** Stacking the arrays as columns and averaging each row is the arithmetic
    mean of the arrays. *)
Lemma mean_axis1_stack (l : list vec3) :
  np.mean_axis1 (np.stack_axis1 l) = vec_mean l.
Proof.
  unfold np.mean_axis1, np.stack_axis1, np.mean, vec_mean, np.scale.
  rewrite !np_sum_Rsum, !length_map.
  destruct (Rsum_components l) as (-> & -> & ->).
  apply vec3_eq; simpl; unfold Rdiv; ring.
Qed.

Lemma length_eqb_0 {A : Type} (l : list A) :
  (length l =? 0)%nat = true <-> l = [].
Proof. destruct l; simpl; split; intros; easy. Qed.

Lemma length_eqb_0_false {A : Type} (l : list A) :
  l <> [] -> (length l =? 0)%nat = false.
Proof. destruct l; simpl; intros; easy. Qed.

Lemma argmin_two (x y : R) :
  np.argmin [Some x; Some y] = if Rleb x y then 0%nat else 1%nat.
Proof.
  cbn [np.argmin np.argmin_from].
  unfold Rltb, Rleb.
  destruct (Rlt_dec y x), (Rle_dec x y); try reflexivity; lra.
Qed.

Lemma vector_from_angle_unit (a : R) :
  np.dot (vector_from_angle a) (vector_from_angle a) = 1.
Proof.
  unfold np.dot, vector_from_angle; simpl.
  pose proof (sin2_cos2 a) as H. unfold Rsqr in H. lra.
Qed.

Lemma deviation_defined (a : R) (v u : vec3) :
  unit_vector v = Some u ->
  np.arccos (np.dot_nan (Some (vector_from_angle a)) (Some u))
  = Some (deviation a u).
Proof.
  intros Hu. cbn [np.dot_nan]. apply arccos_in_domain, dot_unit_bounds.
  - apply Req_le, vector_from_angle_unit.
  - apply Req_le, unit_norm_dot, (unit_vector_norm v), Hu.
Qed.

(** The force once both vision sets are known to be non-empty. *)
Lemma _calc_force_nonempty (self : Baeuerle2020.t) (colloid : Colloid)
      (other_colloids : list Colloid) :
  let seen_pos :=
    get_colloids_in_vision colloid other_colloids
      (Baeuerle2020.vision_half_angle self)
      (Baeuerle2020.detection_radius_position self) in
  let seen_ori :=
    get_colloids_in_vision colloid other_colloids
      (Baeuerle2020.vision_half_angle self)
      (Baeuerle2020.detection_radius_orientation self) in
  seen_pos <> [] -> seen_ori <> [] ->
  let to_com := np.sub (vec_mean (map pos seen_pos)) (pos colloid) in
  let a1 := np.arctan2 (vy to_com) (vx to_com)
            + Baeuerle2020.angular_deviation self in
  let a2 := np.arctan2 (vy to_com) (vx to_com)
            - Baeuerle2020.angular_deviation self in
  Baeuerle2020._calc_force self colloid other_colloids
  = match unit_vector (vec_mean (map director seen_ori)) with
    | Some u =>
        let a := smaller_deviation a1 a2 u in
        np.scale (Baeuerle2020.act_force self) (V3 (cos a) (sin a) 0)
    | None =>
        np.scale (Baeuerle2020.act_force self) (V3 (cos a1) (sin a1) 0)
    end.
Proof.
  intros seen_pos seen_ori Hpos Hori to_com a1 a2.
  unfold Baeuerle2020._calc_force.
  fold seen_pos seen_ori.
  rewrite (length_eqb_0_false _ Hpos), (length_eqb_0_false _ Hori).
  rewrite !mean_axis1_stack. unfold angle_from_vector.
  fold to_com. fold a1 a2.
  fold (unit_vector (vec_mean (map director seen_ori))).
  destruct (unit_vector (vec_mean (map director seen_ori))) as [u|] eqn:Hu.
  - cbn [map]. rewrite !(deviation_defined _ _ _ Hu), argmin_two.
    unfold smaller_deviation.
    destruct (Rleb (deviation a1 u) (deviation a2 u)); reflexivity.
  - reflexivity.
Qed.


Lemma _calc_force_empty (self : Baeuerle2020.t) (colloid : Colloid)
      (other_colloids : list Colloid) :
  get_colloids_in_vision colloid other_colloids
    (Baeuerle2020.vision_half_angle self)
    (Baeuerle2020.detection_radius_position self) = []
  \/ get_colloids_in_vision colloid other_colloids
       (Baeuerle2020.vision_half_angle self)
       (Baeuerle2020.detection_radius_orientation self) = [] ->
  Baeuerle2020._calc_force self colloid other_colloids = np.zeros3.
Proof.
  intros H. unfold Baeuerle2020._calc_force.
  destruct (length (get_colloids_in_vision colloid other_colloids _
                      (Baeuerle2020.detection_radius_position self)) =? 0)%nat
    eqn:Hpos; [reflexivity|].
  destruct H as [H|H].
  - rewrite H in Hpos. discriminate Hpos.
  - rewrite H. reflexivity.
Qed.

(** C5.  When no colloid is seen within [detection_radius_position], or none
    within [detection_radius_orientation], [Baeuerle2020.calc_force] returns
    the zero vector: the mean of an empty stack is never taken. *)
Theorem Baeuerle2020_calc_force_empty (self : Baeuerle2020.t)
        (colloid : Colloid) (other_colloids : list Colloid) :
  get_colloids_in_vision colloid other_colloids
    (Baeuerle2020.vision_half_angle self)
    (Baeuerle2020.detection_radius_position self) = []
  \/ get_colloids_in_vision colloid other_colloids
       (Baeuerle2020.vision_half_angle self)
       (Baeuerle2020.detection_radius_orientation self) = [] ->
  Baeuerle2020.calc_force self colloid other_colloids = V3 0 0 0.
Proof.
  intros H. unfold Baeuerle2020.calc_force.
  exact (_calc_force_empty self colloid other_colloids H).
Qed.

Lemma norm_scale_vector_from_angle (s a : R) :
  np.linalg_norm (np.scale s (vector_from_angle a)) = Rabs s.
Proof.
  unfold np.linalg_norm, np.scale, vector_from_angle; simpl.
  rewrite <- sqrt_Rsqr_abs. f_equal.
  pose proof (sin2_cos2 a) as H. unfold Rsqr in *. nra.
Qed.

Lemma _calc_force_norm (self : Baeuerle2020.t) (colloid : Colloid)
      (other_colloids : list Colloid) :
  get_colloids_in_vision colloid other_colloids
    (Baeuerle2020.vision_half_angle self)
    (Baeuerle2020.detection_radius_position self) <> [] ->
  get_colloids_in_vision colloid other_colloids
    (Baeuerle2020.vision_half_angle self)
    (Baeuerle2020.detection_radius_orientation self) <> [] ->
  np.linalg_norm (Baeuerle2020._calc_force self colloid other_colloids)
  = Rabs (Baeuerle2020.act_force self)
  /\ vz (Baeuerle2020._calc_force self colloid other_colloids) = 0.
Proof.
  intros Hpos Hori.
  rewrite (_calc_force_nonempty self colloid other_colloids Hpos Hori).
  destruct (unit_vector _);
    (split; [apply norm_scale_vector_from_angle | simpl; ring]).
Qed.

(** C6.  With both vision sets non-empty, the force of [Baeuerle2020] has
    Euclidean norm [|act_force|] and a zero z component, whatever the angular
    deviation and the detection radii. *)
Theorem Baeuerle2020_calc_force_norm (self : Baeuerle2020.t)
        (colloid : Colloid) (other_colloids : list Colloid) :
  get_colloids_in_vision colloid other_colloids
    (Baeuerle2020.vision_half_angle self)
    (Baeuerle2020.detection_radius_position self) <> [] ->
  get_colloids_in_vision colloid other_colloids
    (Baeuerle2020.vision_half_angle self)
    (Baeuerle2020.detection_radius_orientation self) <> [] ->
  np.linalg_norm (Baeuerle2020.calc_force self colloid other_colloids)
  = Rabs (Baeuerle2020.act_force self)
  /\ vz (Baeuerle2020.calc_force self colloid other_colloids) = 0.
Proof.
  intros Hpos Hori. unfold Baeuerle2020.calc_force.
  exact (_calc_force_norm self colloid other_colloids Hpos Hori).
Qed.


(** C10.  Neither hand-crafted model applies a torque: both [calc_torque]
    return the zero vector for every model, colloid and list of colloids. *)
Theorem calc_torque_zero (lavergne : Lavergne2019.t)
        (baeuerle : Baeuerle2020.t) (colloid : Colloid)
        (other_colloids : list Colloid) :
  Lavergne2019.calc_torque lavergne colloid other_colloids = V3 0 0 0
  /\ Baeuerle2020.calc_torque baeuerle colloid other_colloids = V3 0 0 0.
Proof. split; reflexivity. Qed.

(** ** [MLModel] *)

Lemma softmax_length (logits : list R) :
  length (MLModel.softmax logits) = length logits.
Proof. unfold MLModel.softmax. apply length_map. Qed.

(** Every index below four names a key of the dict, and the key its action. *)
Lemma action_lookup (idx : nat) :
  (idx < 4)%nat ->
  exists key,
    nth_error (MLModel.keys MLModel.actions) idx = Some key
    /\ MLModel.getitem MLModel.actions key
       = Some (nth idx MLModel.action_table MLModel.do_nothing).
Proof.
  intros H.
  destruct idx as [|[|[|[|idx]]]]; [| | | |lia];
    eexists; (split; [reflexivity|reflexivity]).
Qed.

(** An index past the table raises. *)
Lemma action_lookup_out_of_range (idx : nat) :
  (4 <= idx)%nat -> nth_error (MLModel.keys MLModel.actions) idx = None.
Proof. intros H. apply nth_error_None. simpl. exact H. Qed.

Lemma action_table_members (idx : nat) :
  let a := nth idx MLModel.action_table MLModel.do_nothing in
  a = MLModel.rotate_clockwise \/ a = MLModel.translate
  \/ a = MLModel.rotate_counter_clockwise \/ a = MLModel.do_nothing.
Proof.
  destruct idx as [|[|[|[|idx]]]]; cbv zeta; simpl;
    [now left | now right; left | now right; right; left
    | now right; right; right | destruct idx; now right; right; right].
Qed.

Section MLModelRun.

Context {feature generator : Type}.
Variable compute_observable :
  (MLModel.ref -> Colloid) -> MLModel.ref -> list MLModel.ref -> feature.
Variable model : feature -> list R.
Variable sample : list R -> generator -> nat * generator.
Variable store : MLModel.ref -> Colloid.

(** The network has between one and four outputs. *)
Hypothesis model_outputs :
  forall f, (1 <= length (model f) <= 4)%nat.
(** A sample of a categorical distribution is one of its categories. *)
Hypothesis sample_range :
  forall probs g, probs <> [] -> (fst (sample probs g) < length probs)%nat.

Lemma sampled_index_in_table (f : feature) (g : generator) :
  (fst (sample (MLModel.softmax (model f)) g) < 4)%nat.
Proof.
  pose proof (model_outputs f) as [Hlo Hhi].
  pose proof (sample_range (MLModel.softmax (model f)) g) as H.
  rewrite softmax_length in H.
  assert (Hne : MLModel.softmax (model f) <> []).
  { intros He. apply (f_equal (@length R)) in He.
    rewrite softmax_length in He. simpl in He. lia. }
  specialize (H Hne). lia.
Qed.

(** The loop returns exactly when every sampled index is below four; it
    has then appended one action per colloid, the entry of the table at the
    sampled index, and one call of the observable. *)
Lemma for_each_exact (colloids l : list MLModel.ref)
      (st : MLModel.loop_state generator) :
  MLModel.for_each generator
    (MLModel.loop_body feature generator compute_observable model sample
                       store colloids) l st
  = let indices :=
      MLModel.sampled_indices compute_observable model sample store
                              colloids l (MLModel.gen st) in
    if forallb (fun i => i <? 4)%nat indices then
      Some (MLModel.mkState generator
              (MLModel.actions_so_far st
               ++ map (fun i => nth i MLModel.action_table MLModel.do_nothing)
                      indices)
              (MLModel.generator_after compute_observable model sample
                                       store colloids l (MLModel.gen st))
              (MLModel.observable_calls st
               ++ map (fun c => (c, MLModel.other_colloids_of colloids c)) l))
    else None.
Proof.
  cbv zeta. revert st; induction l as [|c l IH]; intros st.
  - simpl. rewrite !app_nil_r. now destruct st.
  - cbn [MLModel.for_each MLModel.sampled_indices MLModel.generator_after].
    unfold MLModel.loop_body at 1.
    destruct (sample _ (MLModel.gen st)) as [idx g1].
    cbn [forallb map]. destruct (idx <? 4)%nat eqn:Hidx.
    + apply Nat.ltb_lt in Hidx.
      destruct (action_lookup idx Hidx) as (key & -> & ->).
      rewrite IH. cbn [MLModel.actions_so_far MLModel.gen
                       MLModel.observable_calls andb].
      now rewrite <- !app_assoc.
    + apply Nat.ltb_ge in Hidx.
      now rewrite (action_lookup_out_of_range idx Hidx).
Qed.

Lemma sampled_indices_in_table (colloids l : list MLModel.ref)
      (g : generator) :
  forallb (fun i => i <? 4)%nat
          (MLModel.sampled_indices compute_observable model sample store
                                   colloids l g) = true.
Proof.
  revert g; induction l as [|c l IH]; intros g; simpl; [reflexivity|].
  pose proof (sampled_index_in_table
                (compute_observable store c
                   (MLModel.other_colloids_of colloids c)) g) as Hidx.
  destruct (sample _ g) as [idx g1]. simpl in *.
  rewrite IH. apply Nat.ltb_lt in Hidx. now rewrite Hidx.
Qed.

(** [calc_action] returns exactly when every sampled index is below four,
    and what it returns then. *)
Lemma calc_action_exact (colloids : list MLModel.ref) (g : generator) :
  MLModel.calc_action compute_observable model sample store colloids g
  = let indices :=
      MLModel.sampled_indices compute_observable model sample store
                              colloids colloids g in
    if forallb (fun i => i <? 4)%nat indices then
      Some (MLModel.mkState generator
              (map (fun i => nth i MLModel.action_table MLModel.do_nothing)
                   indices)
              (MLModel.generator_after compute_observable model sample
                                       store colloids colloids g)
              (map (fun c => (c, MLModel.other_colloids_of colloids c))
                   colloids))
    else None.
Proof. unfold MLModel.calc_action. now rewrite for_each_exact. Qed.

(** With a network of at most four outputs and a sampler that returns a
    category, [calc_action] returns. *)
Lemma calc_action_returns (colloids : list MLModel.ref) (g : generator) :
  exists st,
    MLModel.calc_action compute_observable model sample store colloids g
    = Some st.
Proof.
  rewrite calc_action_exact. cbv zeta.
  rewrite sampled_indices_in_table. eexists. reflexivity.
Qed.

Lemma sampled_indices_length (colloids l : list MLModel.ref) (g : generator) :
  length (MLModel.sampled_indices compute_observable model sample store
            colloids l g) = length l.
Proof.
  revert g; induction l as [|c l IH]; intros g; simpl; [reflexivity|].
  destruct (sample _ g) as [idx g1]. simpl. now rewrite IH.
Qed.

End MLModelRun.

(** What a returning call of [calc_action] has returned. *)
Lemma calc_action_result {feature generator : Type}
      (compute_observable :
         (MLModel.ref -> Colloid) -> MLModel.ref -> list MLModel.ref ->
         feature)
      (model : feature -> list R)
      (sample : list R -> generator -> nat * generator)
      (store : MLModel.ref -> Colloid)
      (colloids : list MLModel.ref) (g : generator)
      (st : MLModel.loop_state generator) :
  MLModel.calc_action compute_observable model sample store colloids g
  = Some st ->
  MLModel.actions_so_far st
  = map (fun idx => nth idx MLModel.action_table MLModel.do_nothing)
        (MLModel.sampled_indices compute_observable model sample store
                                 colloids colloids g)
  /\ MLModel.observable_calls st
     = map (fun c => (c, MLModel.other_colloids_of colloids c)) colloids.
Proof.
  rewrite calc_action_exact. cbv zeta.
  destruct (forallb _ _); [|discriminate].
  intros [= <-]. split; reflexivity.
Qed.

(** C4.  [MLModel.calc_action] returns one action per input colloid, in a
    list of the length of the input, and every action is one of the four of
    the model: RotateClockwise with torque [[0, 0, 0.1]], Translate with
    force [10.0], RotateCounterClockwise with torque [[0, 0, -0.1]] and
    DoNothing.  The action of a colloid is the entry of the fixed table at
    the index sampled from the categorical distribution that the softmax of
    the network output on the observable gives.  All this holds of every
    call that returns; the call does return when the network has between one
    and four outputs and the sampler returns a category. *)
Theorem MLModel_calc_action_spec {feature generator : Type}
        (compute_observable :
           (MLModel.ref -> Colloid) -> MLModel.ref -> list MLModel.ref ->
           feature)
        (model : feature -> list R)
        (sample : list R -> generator -> nat * generator)
        (store : MLModel.ref -> Colloid)
        (colloids : list MLModel.ref) (g : generator) :
  (forall st,
      MLModel.calc_action compute_observable model sample store colloids g
      = Some st ->
      length (MLModel.actions_so_far st) = length colloids
      /\ Forall (fun a =>
                   a = MLModel.mkAction None (Some (V3 0 0 (1 / 10)))
                   \/ a = MLModel.mkAction (Some 10) None
                   \/ a = MLModel.mkAction None (Some (V3 0 0 (- (1 / 10))))
                   \/ a = MLModel.mkAction None None)
                (MLModel.actions_so_far st)
      /\ MLModel.actions_so_far st
         = map (fun idx => nth idx MLModel.action_table MLModel.do_nothing)
               (MLModel.sampled_indices compute_observable model sample store
                  colloids colloids g))
  /\ ((forall f, (1 <= length (model f) <= 4)%nat) ->
      (forall probs g0,
          probs <> [] -> (fst (sample probs g0) < length probs)%nat) ->
      exists st,
        MLModel.calc_action compute_observable model sample store colloids g
        = Some st).
Proof.
  split.
  - intros st Hrun.
    destruct (calc_action_result _ _ _ _ _ _ _ Hrun) as [Hacts _].
    rewrite Hacts. split; [|split; [|reflexivity]].
    + now rewrite length_map, sampled_indices_length.
    + apply Forall_forall. intros a Ha. apply in_map_iff in Ha.
      destruct Ha as (idx & <- & _). exact (action_table_members idx).
  - intros Hmodel Hsample.
    exact (calc_action_returns compute_observable model sample store
             Hmodel Hsample colloids g).
Qed.


(** ** The models over the store: what a call leaves unchanged *)

Section Frame.

Context {P : Type}.

Local Abbreviation spec := (@Imp.spec P _).

Lemma keeps_refl (n : nat) (st : Imp.state P) : Imp.keeps n st st.
Proof. unfold Imp.keeps; repeat split; auto. Qed.

Lemma keeps_trans (n : nat) (st1 st2 st3 : Imp.state P) :
  Imp.keeps n st1 st2 -> Imp.keeps n st2 st3 -> Imp.keeps n st1 st3.
Proof.
  intros (Hs & Ho & Hl & Ha) (Hs' & Ho' & Hl' & Ha').
  unfold Imp.keeps; repeat split.
  - congruence.
  - congruence.
  - lia.
  - intros a Hlt. rewrite Ha', Ha by exact Hlt. reflexivity.
Qed.

Lemma spec_ret {A : Type} (n : nat) (x : A) (Q : A -> Prop) :
  Q x -> spec n (Imp.ret x) Q.
Proof. intros H st _. split; [apply keeps_refl | exact H]. Qed.

Lemma spec_bind {A B : Type} (n : nat) (m : Imp.M P A) (k : A -> Imp.M P B)
      (Q : A -> Prop) (R : B -> Prop) :
  spec n m Q -> (forall x, Q x -> spec n (k x) R) -> spec n (Imp.bind m k) R.
Proof.
  intros Hm Hk st Hn. unfold Imp.bind.
  destruct (Hm st Hn) as [Hkeep HQ].
  destruct (m st) as [x st1]; simpl in *.
  assert (Hn1 : (n <= length (Imp.arrays st1))%nat).
  { destruct Hkeep as (_ & _ & Hl & _). lia. }
  destruct (Hk x HQ st1 Hn1) as [Hkeep' HR].
  split; [exact (keeps_trans _ _ _ _ Hkeep Hkeep') | exact HR].
Qed.

Lemma spec_weaken {A : Type} (n : nat) (m : Imp.M P A) (Q Q' : A -> Prop) :
  spec n m Q -> (forall x, Q x -> Q' x) -> spec n m Q'.
Proof.
  intros Hm HQ st Hn. destruct (Hm st Hn) as [Hk Hq]. split; auto.
Qed.

Lemma set_nth_length (a : nat) (v : Imp.cell) (l : list Imp.cell) :
  length (Imp.set_nth a v l) = length l.
Proof.
  revert a; induction l as [|x l IH]; intros [|a]; simpl; auto.
Qed.

Lemma set_nth_other (a b : nat) (v : Imp.cell) (l : list Imp.cell) :
  a <> b -> nth b (Imp.set_nth a v l) None = nth b l None.
Proof.
  revert a b; induction l as [|x l IH]; intros [|a] [|b] H; simpl; auto.
  contradiction.
Qed.

Lemma set_nth_same (a : nat) (v : Imp.cell) (l : list Imp.cell) :
  (a < length l)%nat -> nth a (Imp.set_nth a v l) None = v.
Proof.
  revert a; induction l as [|x l IH]; intros [|a] H; simpl in *;
    try lia; auto. apply IH. lia.
Qed.

(** A new array is at an address not below [n]. *)
Lemma new_array_spec (n : nat) (v : Imp.cell) :
  spec n (Imp.new_array v) (fun a => (n <= a)%nat).
Proof.
  intros st Hn. unfold Imp.new_array; simpl. split; [|exact Hn].
  unfold Imp.keeps; simpl. repeat split.
  - rewrite length_app; simpl; lia.
  - intros a Ha. apply app_nth1. lia.
Qed.

Lemma read_spec (n : nat) (a : Imp.addr) :
  spec n (Imp.read a) (fun _ => True).
Proof. intros st _. split; [apply keeps_refl | exact I]. Qed.

(** Writing at an address not below [n] keeps the store below [n]. *)
Lemma write_spec (n : nat) (a : Imp.addr) (v : Imp.cell) :
  (n <= a)%nat -> spec n (Imp.write a v) (fun _ => True).
Proof.
  intros Ha st Hn. unfold Imp.write; simpl. split; [|exact I].
  unfold Imp.keeps; simpl. repeat split.
  - rewrite set_nth_length. lia.
  - intros b Hb. apply set_nth_other. lia.
Qed.

Lemma getattr_spec {A : Type} (n : nat) (f : P -> A) :
  spec n (Imp.getattr f) (fun _ => True).
Proof. intros st _. split; [apply keeps_refl | exact I]. Qed.

Lemma attr_pos_spec (n : nat) (r : Imp.ref) :
  spec n (Imp.attr_pos r) (fun _ => True).
Proof. intros st _. split; [apply keeps_refl | exact I]. Qed.

Lemma attr_director_spec (n : nat) (r : Imp.ref) :
  spec n (Imp.attr_director r) (fun _ => True).
Proof. intros st _. split; [apply keeps_refl | exact I]. Qed.

Lemma foldM_spec {A B : Type} (n : nat) (body : A -> B -> Imp.M P A)
      (l : list B) (acc : A) :
  (forall acc x, spec n (body acc x) (fun _ => True)) ->
  spec n (Imp.foldM body l acc) (fun _ => True).
Proof.
  intros Hbody. revert acc; induction l as [|x l IH]; intros acc; simpl.
  - now apply spec_ret.
  - eapply spec_bind; [apply Hbody | intros acc' _; apply IH].
Qed.

Lemma mapM_spec {A B : Type} (n : nat) (f : A -> Imp.M P B) (l : list A)
      (Q : B -> Prop) :
  (forall x, spec n (f x) Q) -> spec n (Imp.mapM f l) (Forall Q).
Proof.
  intros Hf. induction l as [|x l IH]; simpl.
  - apply spec_ret. constructor.
  - eapply spec_bind; [apply Hf | intros y Hy].
    eapply spec_bind; [apply IH | intros ys Hys].
    apply spec_ret. now constructor.
Qed.

(** Run the next operation of a sequence. *)
Ltac step lemma := eapply spec_bind; [apply lemma | cbv beta; intros].

Lemma np_zeros_spec (n : nat) :
  spec n (@Imp.np_zeros P) (fun a => (n <= a)%nat).
Proof. apply new_array_spec. Qed.

Lemma np_array_spec (n : nat) (a : Imp.addr) :
  spec n (@Imp.np_array P a) (fun r => (n <= r)%nat).
Proof. unfold Imp.np_array. step read_spec. apply new_array_spec. Qed.

Lemma np_copy_spec (n : nat) (a : Imp.addr) :
  spec n (@Imp.np_copy P a) (fun r => (n <= r)%nat).
Proof. unfold Imp.np_copy. step read_spec. apply new_array_spec. Qed.

Lemma np_sub_spec (n : nat) (a b : Imp.addr) :
  spec n (@Imp.np_sub P a b) (fun r => (n <= r)%nat).
Proof.
  unfold Imp.np_sub. step read_spec. step read_spec. apply new_array_spec.
Qed.

Lemma np_linalg_norm_spec (n : nat) (a : Imp.addr) :
  spec n (@Imp.np_linalg_norm P a) (fun _ => True).
Proof. unfold Imp.np_linalg_norm. step read_spec. now apply spec_ret. Qed.

Lemma np_div_spec (n : nat) (a : Imp.addr) (s : option R) :
  spec n (@Imp.np_div P a s) (fun r => (n <= r)%nat).
Proof. unfold Imp.np_div. step read_spec. apply new_array_spec. Qed.

(** The in-place division keeps the store below [n] when its array is not
    below [n]. *)
Lemma np_idiv_spec (n : nat) (a : Imp.addr) (s : option R) :
  (n <= a)%nat -> spec n (@Imp.np_idiv P a s) (fun _ => True).
Proof.
  intros Ha. unfold Imp.np_idiv. step read_spec. now apply write_spec.
Qed.

Lemma np_dot_spec (n : nat) (a b : Imp.addr) :
  spec n (@Imp.np_dot P a b) (fun _ => True).
Proof.
  unfold Imp.np_dot. step read_spec. step read_spec. now apply spec_ret.
Qed.

Lemma np_scale_spec (n : nat) (s : R) (a : Imp.addr) :
  spec n (@Imp.np_scale P s a) (fun r => (n <= r)%nat).
Proof. unfold Imp.np_scale. step read_spec. apply new_array_spec. Qed.

Lemma np_mean_stack_spec (n : nat) (l : list Imp.addr) :
  spec n (@Imp.np_mean_stack P l) (fun r => (n <= r)%nat).
Proof.
  unfold Imp.np_mean_stack.
  step (mapM_spec n (@Imp.read P) l (fun _ => True)).
  - intros a. apply read_spec.
  - apply new_array_spec.
Qed.

Lemma angle_from_vector_spec (n : nat) (a : Imp.addr) :
  spec n (@Imp.angle_from_vector P a) (fun _ => True).
Proof. unfold Imp.angle_from_vector. step read_spec. now apply spec_ret. Qed.

Lemma vector_from_angle_spec (n : nat) (angle : option R) :
  spec n (@Imp.vector_from_angle P angle) (fun r => (n <= r)%nat).
Proof. apply new_array_spec. Qed.

Lemma get_colloids_in_vision_keeps (n : nat) (coll : Imp.ref)
      (other_coll : list Imp.ref) (vha : R) (vr : ereal) :
  spec n (@Imp.get_colloids_in_vision P coll other_coll vha vr)
       (fun _ => True).
Proof.
  unfold Imp.get_colloids_in_vision.
  step attr_pos_spec. step np_array_spec. step attr_director_spec.
  apply foldM_spec. intros acc other_p. unfold Imp.vision_loop_body.
  step attr_pos_spec. step np_sub_spec. step np_linalg_norm_spec.
  step np_div_spec. step np_dot_spec. now apply spec_ret.
Qed.

End Frame.

Ltac run lemma := eapply spec_bind; [apply lemma | cbv beta; intros].

Lemma Lavergne2019_calc_force_keeps (n : nat) (colloid : Imp.ref)
      (other_colloids : list Imp.ref) :
  Imp.spec n (Imp.Lavergne2019.calc_force colloid other_colloids)
       (fun r => (n <= r)%nat).
Proof.
  unfold Imp.Lavergne2019.calc_force.
  run @getattr_spec. run @get_colloids_in_vision_keeps.
  run @attr_pos_spec. run @np_copy_spec.
  eapply spec_bind.
  { apply foldM_spec. intros acc coll.
    unfold Imp.Lavergne2019.perception_loop_body.
    run @attr_pos_spec. run @np_sub_spec. run @np_linalg_norm_spec.
    now apply spec_ret. }
  intros perception _. run @getattr_spec.
  destruct (match perception with Some p => _ | None => _ end).
  - run @attr_director_spec. run @np_copy_spec. run @getattr_spec.
    run @np_scale_spec. run @np_linalg_norm_spec. apply np_div_spec.
  - apply np_zeros_spec.
Qed.

Lemma Baeuerle2020_calc_force_keeps (n : nat) (colloid : Imp.ref)
      (other_colloids : list Imp.ref) :
  Imp.spec n (Imp.Baeuerle2020._calc_force colloid other_colloids)
       (fun r => (n <= r)%nat).
Proof.
  unfold Imp.Baeuerle2020._calc_force.
  run @getattr_spec. run @getattr_spec. run @get_colloids_in_vision_keeps.
  destruct (length _ =? 0)%nat; [apply np_zeros_spec|].
  eapply spec_bind.
  { apply mapM_spec with (Q := fun _ => True). intros r. apply attr_pos_spec. }
  intros positions _.
  run @np_mean_stack_spec. run @attr_pos_spec. run @np_sub_spec.
  run @angle_from_vector_spec. run @getattr_spec.
  run @get_colloids_in_vision_keeps.
  destruct (length _ =? 0)%nat; [apply np_zeros_spec|].
  eapply spec_bind.
  { apply mapM_spec with (Q := fun _ => True). intros r.
    apply attr_director_spec. }
  intros directors _.
  eapply spec_bind; [apply np_mean_stack_spec|].
  intros mean_orientation_in_vision Hfresh.
  run @np_linalg_norm_spec.
  eapply spec_bind; [apply np_idiv_spec; exact Hfresh|]. intros _ _.
  run @getattr_spec.
  eapply spec_bind.
  { apply mapM_spec with (Q := fun _ => True). intros a.
    eapply spec_weaken; [apply vector_from_angle_spec | auto]. }
  intros new_orientation_choices _.
  eapply spec_bind.
  { apply mapM_spec with (Q := fun _ => True). intros o.
    run @np_dot_spec. now apply spec_ret. }
  intros angle_deviations _.
  run @getattr_spec. apply np_scale_spec.
Qed.

(** What is kept below the first free address covers every allocated
    colloid. *)
Lemma keeps_colloid {P : Type} (st st' : Imp.state P) (r : Imp.ref) :
  Imp.keeps (length (Imp.arrays st)) st st' ->
  Imp.allocated st r ->
  Imp.pos_of st' r = Imp.pos_of st r
  /\ Imp.director_of st' r = Imp.director_of st r.
Proof.
  intros (_ & Ho & _ & Ha) [Hp Hd]. unfold Imp.pos_of, Imp.director_of.
  rewrite Ho. split; apply Ha; assumption.
Qed.

(** C7.  A call of [calc_force] or [calc_torque] of [Lavergne2019] or of
    [Baeuerle2020] leaves the position and the director of the focal colloid
    and of every other colloid as they were, and every attribute of the
    model as well. *)
Theorem calc_force_calc_torque_frame (colloid : Imp.ref)
        (other_colloids : list Imp.ref)
        (lavergne : Imp.state Lavergne2019.t)
        (baeuerle : Imp.state Baeuerle2020.t) :
  Forall (Imp.allocated lavergne) (colloid :: other_colloids) ->
  Forall (Imp.allocated baeuerle) (colloid :: other_colloids) ->
  Imp.unchanged (colloid :: other_colloids) lavergne
    (snd (Imp.Lavergne2019.calc_force colloid other_colloids lavergne))
  /\ Imp.unchanged (colloid :: other_colloids) lavergne
       (snd (Imp.Lavergne2019.calc_torque colloid other_colloids lavergne))
  /\ Imp.unchanged (colloid :: other_colloids) baeuerle
       (snd (Imp.Baeuerle2020.calc_force colloid other_colloids baeuerle))
  /\ Imp.unchanged (colloid :: other_colloids) baeuerle
       (snd (Imp.Baeuerle2020.calc_torque colloid other_colloids baeuerle)).
Proof.
  intros HL HB.
  assert (Hkeep : forall (P : Type) (st st' : Imp.state P),
             Forall (Imp.allocated st) (colloid :: other_colloids) ->
             Imp.keeps (length (Imp.arrays st)) st st' ->
             Imp.unchanged (colloid :: other_colloids) st st').
  { intros P st st' Hall Hk. unfold Imp.unchanged.
    split; [apply Hk | split; [apply Hk|]].
    intros r Hr. apply keeps_colloid; [exact Hk|].
    rewrite Forall_forall in Hall. apply Hall, Hr. }
  split; [|split; [|split]]; apply Hkeep; try assumption.
  - apply (Lavergne2019_calc_force_keeps _ colloid other_colloids lavergne).
    lia.
  - apply (np_zeros_spec (P := Lavergne2019.t) _ lavergne). lia.
  - apply (Baeuerle2020_calc_force_keeps _ colloid other_colloids baeuerle).
    lia.
  - apply (np_zeros_spec (P := Baeuerle2020.t) _ baeuerle). lia.
Qed.


(** ** The models over the store compute what the models on values compute *)

Section Simulation.

Context {P : Type}.

(** The colloid that each object of the store stands for. *)
Variable value : Imp.ref -> Colloid.

Lemma bind_run {A B : Type} (m : Imp.M P A) (k : A -> Imp.M P B)
      (st st' : Imp.state P) (x : A) :
  m st = (x, st') -> Imp.bind m k st = k x st'.
Proof. intros H. unfold Imp.bind. now rewrite H. Qed.

Lemma holds_nth (st : Imp.state P) (a : Imp.addr) (v : Imp.cell) :
  Imp.holds st a v -> nth a (Imp.arrays st) None = v.
Proof. unfold Imp.holds. intros H. now apply nth_error_nth. Qed.

Lemma holds_grow (st : Imp.state P) (ext : list Imp.cell) (a : Imp.addr)
      (v : Imp.cell) :
  Imp.holds st a v -> Imp.holds (Imp.grow st ext) a v.
Proof.
  unfold Imp.holds; simpl. intros H. rewrite nth_error_app1; [exact H|].
  apply nth_error_Some. congruence.
Qed.

Lemma holds_new (st : Imp.state P) (v : Imp.cell) :
  Imp.holds (Imp.grow st [v]) (length (Imp.arrays st)) v.
Proof.
  unfold Imp.holds; simpl. rewrite nth_error_app2 by lia.
  now rewrite Nat.sub_diag.
Qed.

Lemma represents_grow (st : Imp.state P) (ext : list Imp.cell)
      (r : Imp.ref) (c : Colloid) :
  Imp.represents st r c -> Imp.represents (Imp.grow st ext) r c.
Proof. intros [Hp Hd]. split; now apply holds_grow. Qed.

Lemma grow_grow (st : Imp.state P) (e1 e2 : list Imp.cell) :
  Imp.grow (Imp.grow st e1) e2 = Imp.grow st (e1 ++ e2).
Proof. unfold Imp.grow; simpl. now rewrite app_assoc. Qed.

Lemma grow_nil (st : Imp.state P) : Imp.grow st [] = st.
Proof. unfold Imp.grow. rewrite app_nil_r. now destruct st. Qed.

(** *** What each operation returns, and the store it leaves *)

Lemma read_run (st : Imp.state P) (a : Imp.addr) (v : Imp.cell) :
  Imp.holds st a v -> Imp.read a st = (v, st).
Proof. intros H. unfold Imp.read. now rewrite (holds_nth _ _ _ H). Qed.

Lemma attr_pos_run (st : Imp.state P) (r : Imp.ref) :
  Imp.attr_pos r st = (Imp.pos_at (Imp.objects st r), st).
Proof. reflexivity. Qed.

Lemma attr_director_run (st : Imp.state P) (r : Imp.ref) :
  Imp.attr_director r st = (Imp.director_at (Imp.objects st r), st).
Proof. reflexivity. Qed.

Lemma getattr_run {A : Type} (st : Imp.state P) (f : P -> A) :
  Imp.getattr f st = (f (Imp.self st), st).
Proof. reflexivity. Qed.

Lemma np_array_run (st : Imp.state P) (a : Imp.addr) (v : vec3) :
  Imp.holds st a (Some v) ->
  Imp.np_array a st
  = (length (Imp.arrays st), Imp.grow st [Some (np.array v)]).
Proof.
  intros H. unfold Imp.np_array.
  now rewrite (bind_run _ _ _ _ _ (read_run _ _ _ H)).
Qed.

Lemma np_copy_run (st : Imp.state P) (a : Imp.addr) (v : vec3) :
  Imp.holds st a (Some v) ->
  Imp.np_copy a st
  = (length (Imp.arrays st), Imp.grow st [Some (np.copy v)]).
Proof.
  intros H. unfold Imp.np_copy.
  now rewrite (bind_run _ _ _ _ _ (read_run _ _ _ H)).
Qed.

Lemma np_sub_run (st : Imp.state P) (a b : Imp.addr) (u v : vec3) :
  Imp.holds st a (Some u) -> Imp.holds st b (Some v) ->
  Imp.np_sub a b st
  = (length (Imp.arrays st), Imp.grow st [Some (np.sub u v)]).
Proof.
  intros Ha Hb. unfold Imp.np_sub.
  rewrite (bind_run _ _ _ _ _ (read_run _ _ _ Ha)).
  now rewrite (bind_run _ _ _ _ _ (read_run _ _ _ Hb)).
Qed.

Lemma np_linalg_norm_run (st : Imp.state P) (a : Imp.addr) (v : vec3) :
  Imp.holds st a (Some v) ->
  Imp.np_linalg_norm a st = (Some (np.linalg_norm v), st).
Proof.
  intros H. unfold Imp.np_linalg_norm.
  now rewrite (bind_run _ _ _ _ _ (read_run _ _ _ H)).
Qed.

Lemma np_div_run (st : Imp.state P) (a : Imp.addr) (v : vec3) (s : R) :
  Imp.holds st a (Some v) ->
  Imp.np_div a (Some s) st
  = (length (Imp.arrays st), Imp.grow st [np.div v s]).
Proof.
  intros H. unfold Imp.np_div.
  now rewrite (bind_run _ _ _ _ _ (read_run _ _ _ H)).
Qed.

Lemma np_dot_run (st : Imp.state P) (a b : Imp.addr) (u v : Imp.cell) :
  Imp.holds st a u -> Imp.holds st b v ->
  Imp.np_dot a b st = (np.dot_nan u v, st).
Proof.
  intros Ha Hb. unfold Imp.np_dot.
  rewrite (bind_run _ _ _ _ _ (read_run _ _ _ Ha)).
  now rewrite (bind_run _ _ _ _ _ (read_run _ _ _ Hb)).
Qed.

Lemma np_scale_run (st : Imp.state P) (s : R) (a : Imp.addr) (v : vec3) :
  Imp.holds st a (Some v) ->
  Imp.np_scale s a st
  = (length (Imp.arrays st), Imp.grow st [Some (np.scale s v)]).
Proof.
  intros H. unfold Imp.np_scale.
  now rewrite (bind_run _ _ _ _ _ (read_run _ _ _ H)).
Qed.

(** *** [get_colloids_in_vision] *)

(** One iteration of the loop allocates two arrays and tests what the loop
    on values tests. *)
Lemma vision_loop_body_run (st : Imp.state P) (my_pos my_director : Imp.addr)
      (p d : vec3) (vha : R) (vr : ereal) (acc : list Imp.ref)
      (r : Imp.ref) :
  Imp.holds st my_pos (Some p) ->
  Imp.holds st my_director (Some d) ->
  Imp.represents st r (value r) ->
  exists ext,
    Imp.vision_loop_body my_pos my_director vha vr acc r st
    = (if in_front_and_in_range_from p d vha vr (value r)
       then acc ++ [r] else acc,
       Imp.grow st ext).
Proof.
  intros Hp Hd [Hrp Hrd]. eexists.
  unfold Imp.vision_loop_body.
  rewrite (bind_run _ _ _ _ _ (attr_pos_run _ _)).
  rewrite (bind_run _ _ _ _ _ (np_sub_run _ _ _ _ _ Hrp Hp)).
  rewrite (bind_run _ _ _ _ _
             (np_linalg_norm_run _ _ _ (holds_new st _))).
  rewrite (bind_run _ _ _ _ _ (np_div_run _ _ _ _ (holds_new st _))).
  rewrite (bind_run _ _ _ _ _
             (np_dot_run _ _ _ _ _ (holds_new _ _)
                (holds_grow _ _ _ _ (holds_grow _ _ _ _ Hd)))).
  unfold Imp.ret. rewrite grow_grow. reflexivity.
Qed.

Lemma vision_foldM_run (my_pos my_director : Imp.addr) (p d : vec3)
      (vha : R) (vr : ereal) (rs : list Imp.ref) :
  forall (st : Imp.state P) (acc : list Imp.ref),
    Imp.holds st my_pos (Some p) ->
    Imp.holds st my_director (Some d) ->
    (forall r, In r rs -> Imp.represents st r (value r)) ->
    exists ext,
      Imp.foldM (Imp.vision_loop_body my_pos my_director vha vr) rs acc st
      = (acc
         ++ filter (fun r => in_front_and_in_range_from p d vha vr (value r))
                   rs,
         Imp.grow st ext).
Proof.
  induction rs as [|r rs IH]; intros st acc Hp Hd Hrs.
  - exists []. simpl. unfold Imp.ret. now rewrite app_nil_r, grow_nil.
  - destruct (vision_loop_body_run st my_pos my_director p d vha vr acc r
                Hp Hd (Hrs r (or_introl eq_refl))) as [e1 H1].
    cbn [Imp.foldM]. rewrite (bind_run _ _ _ _ _ H1).
    destruct (IH (Imp.grow st e1)
                 (if in_front_and_in_range_from p d vha vr (value r)
                  then acc ++ [r] else acc))
      as [e2 H2].
    + now apply holds_grow.
    + now apply holds_grow.
    + intros r' Hr'. apply represents_grow, Hrs. now right.
    + exists (e1 ++ e2). rewrite H2, grow_grow. f_equal. cbn [filter].
      destruct (in_front_and_in_range_from p d vha vr (value r));
        [now rewrite <- app_assoc|].
      reflexivity.
Qed.

Lemma filter_map_value (f : Colloid -> bool) (rs : list Imp.ref) :
  map value (filter (fun r => f (value r)) rs) = filter f (map value rs).
Proof.
  induction rs as [|r rs IH]; simpl; [reflexivity|].
  destruct (f (value r)); simpl; now rewrite IH.
Qed.

(** [get_colloids_in_vision] over the store returns the objects of the
    colloids that the function on values returns, and only allocates. *)
Lemma get_colloids_in_vision_run (st : Imp.state P) (coll : Imp.ref)
      (rs : list Imp.ref) (vha : R) (vr : ereal) :
  Imp.represents st coll (value coll) ->
  (forall r, In r rs -> Imp.represents st r (value r)) ->
  exists ext,
    Imp.get_colloids_in_vision coll rs vha vr st
    = (filter (fun r => in_front_and_in_range (value coll) vha vr (value r))
              rs,
       Imp.grow st ext).
Proof.
  intros [Hcp Hcd] Hrs. unfold Imp.get_colloids_in_vision.
  rewrite (bind_run _ _ _ _ _ (attr_pos_run _ _)).
  rewrite (bind_run _ _ _ _ _ (np_array_run _ _ _ Hcp)).
  rewrite (bind_run _ _ _ _ _ (attr_director_run _ _)).
  destruct (vision_foldM_run
              (length (Imp.arrays st))
              (Imp.director_at
                 (Imp.objects
                    (Imp.grow st [Some (np.array (pos (value coll)))]) coll))
              (np.array (pos (value coll))) (director (value coll))
              vha vr rs
              (Imp.grow st [Some (np.array (pos (value coll)))]) [])
    as [ext H].
  - apply holds_new.
  - apply holds_grow. exact Hcd.
  - intros r Hr. apply represents_grow, Hrs, Hr.
  - eexists. rewrite H, grow_grow. reflexivity.
Qed.

Lemma in_vision_value (coll : Imp.ref) (rs : list Imp.ref) (vha : R)
      (vr : ereal) :
  map value
      (filter (fun r => in_front_and_in_range (value coll) vha vr (value r))
              rs)
  = get_colloids_in_vision (value coll) (map value rs) vha vr.
Proof.
  rewrite get_colloids_in_vision_filter.
  apply (filter_map_value (in_front_and_in_range (value coll) vha vr)).
Qed.

(** *** Lists of attributes and their mean *)

Lemma mapM_attr_pos_run (st : Imp.state P) (rs : list Imp.ref) :
  Imp.mapM Imp.attr_pos rs st
  = (map (fun r => Imp.pos_at (Imp.objects st r)) rs, st).
Proof.
  induction rs as [|r rs IH]; [reflexivity|]. cbn [Imp.mapM map].
  rewrite (bind_run _ _ _ _ _ (attr_pos_run _ _)).
  now rewrite (bind_run _ _ _ _ _ IH).
Qed.

Lemma mapM_attr_director_run (st : Imp.state P) (rs : list Imp.ref) :
  Imp.mapM Imp.attr_director rs st
  = (map (fun r => Imp.director_at (Imp.objects st r)) rs, st).
Proof.
  induction rs as [|r rs IH]; [reflexivity|]. cbn [Imp.mapM map].
  rewrite (bind_run _ _ _ _ _ (attr_director_run _ _)).
  now rewrite (bind_run _ _ _ _ _ IH).
Qed.

Lemma mapM_read_run (st : Imp.state P) (l : list Imp.addr)
      (vs : list vec3) :
  Forall2 (fun a v => Imp.holds st a (Some v)) l vs ->
  Imp.mapM Imp.read l st = (map Some vs, st).
Proof.
  induction 1 as [|a v l vs Ha _ IH]; [reflexivity|]. cbn [Imp.mapM map].
  rewrite (bind_run _ _ _ _ _ (read_run _ _ _ Ha)).
  now rewrite (bind_run _ _ _ _ _ IH).
Qed.

Lemma all_finite_Some (vs : list vec3) :
  Imp.all_finite (map Some vs) = Some vs.
Proof. induction vs as [|v vs IH]; simpl; [|rewrite IH]; reflexivity. Qed.

Lemma np_mean_stack_run (st : Imp.state P) (l : list Imp.addr)
      (vs : list vec3) :
  Forall2 (fun a v => Imp.holds st a (Some v)) l vs ->
  Imp.np_mean_stack l st
  = (length (Imp.arrays st),
     Imp.grow st [Some (np.mean_axis1 (np.stack_axis1 vs))]).
Proof.
  intros H. unfold Imp.np_mean_stack.
  rewrite (bind_run _ _ _ _ _ (mapM_read_run _ _ _ H)).
  now rewrite all_finite_Some.
Qed.

Lemma positions_held (st : Imp.state P) (rs : list Imp.ref) :
  (forall r, In r rs -> Imp.represents st r (value r)) ->
  Forall2 (fun a v => Imp.holds st a (Some v))
          (map (fun r => Imp.pos_at (Imp.objects st r)) rs)
          (map pos (map value rs)).
Proof.
  induction rs as [|r rs IH]; intros H; simpl; constructor.
  - apply (H r). now left.
  - apply IH. intros r' Hr'. apply H. now right.
Qed.

Lemma directors_held (st : Imp.state P) (rs : list Imp.ref) :
  (forall r, In r rs -> Imp.represents st r (value r)) ->
  Forall2 (fun a v => Imp.holds st a (Some v))
          (map (fun r => Imp.director_at (Imp.objects st r)) rs)
          (map director (map value rs)).
Proof.
  induction rs as [|r rs IH]; intros H; simpl; constructor.
  - apply (H r). now left.
  - apply IH. intros r' Hr'. apply H. now right.
Qed.

(** *** The in-place division *)

Lemma nth_error_set_nth (a : nat) (v : Imp.cell) (l : list Imp.cell) :
  (a < length l)%nat -> nth_error (Imp.set_nth a v l) a = Some v.
Proof.
  revert a; induction l as [|x l IH]; intros [|a] H; simpl in *;
    try lia; auto. apply IH. lia.
Qed.

Lemma np_idiv_run (st : Imp.state P) (a : Imp.addr) (v : vec3) (s : R) :
  Imp.holds st a (Some v) ->
  exists st',
    Imp.np_idiv a (Some s) st = (tt, st')
    /\ Imp.holds st' a (np.div v s)
    /\ Imp.objects st' = Imp.objects st
    /\ Imp.self st' = Imp.self st.
Proof.
  intros H. eexists. unfold Imp.np_idiv.
  rewrite (bind_run _ _ _ _ _ (read_run _ _ _ H)).
  unfold Imp.write. split; [reflexivity|]. split; [|split; reflexivity].
  unfold Imp.holds; simpl. apply nth_error_set_nth.
  apply nth_error_Some. unfold Imp.holds in H. congruence.
Qed.

End Simulation.

(** *** [Lavergne2019] *)

Lemma perception_loop_body_run (value : Imp.ref -> Colloid)
      (st : Imp.state Lavergne2019.t) (my_pos : Imp.addr) (p : vec3)
      (acc : R) (r : Imp.ref) :
  Imp.holds st my_pos (Some p) ->
  Imp.represents st r (value r) ->
  Imp.Lavergne2019.perception_loop_body my_pos (Some acc) r st
  = (Some (Lavergne2019.perception_loop_body p acc (value r)),
     Imp.grow st [Some (np.sub p (pos (value r)))]).
Proof.
  intros Hp [Hrp _]. unfold Imp.Lavergne2019.perception_loop_body.
  rewrite (bind_run _ _ _ _ _ (attr_pos_run _ _)).
  rewrite (bind_run _ _ _ _ _ (np_sub_run _ _ _ _ _ Hp Hrp)).
  rewrite (bind_run _ _ _ _ _ (np_linalg_norm_run _ _ _ (holds_new _ _))).
  reflexivity.
Qed.

Lemma perception_foldM_run (value : Imp.ref -> Colloid) (my_pos : Imp.addr)
      (p : vec3) (rs : list Imp.ref) :
  forall (st : Imp.state Lavergne2019.t) (acc : R),
    Imp.holds st my_pos (Some p) ->
    (forall r, In r rs -> Imp.represents st r (value r)) ->
    exists ext,
      Imp.foldM (Imp.Lavergne2019.perception_loop_body my_pos) rs (Some acc)
                st
      = (Some (fold_left (Lavergne2019.perception_loop_body p)
                         (map value rs) acc),
         Imp.grow st ext).
Proof.
  induction rs as [|r rs IH]; intros st acc Hp Hrs.
  - exists []. simpl. unfold Imp.ret. now rewrite grow_nil.
  - cbn [Imp.foldM map fold_left].
    rewrite (bind_run _ _ _ _ _
               (perception_loop_body_run value st my_pos p acc r Hp
                  (Hrs r (or_introl eq_refl)))).
    destruct (IH (Imp.grow st [Some (np.sub p (pos (value r)))])
                 (Lavergne2019.perception_loop_body p acc (value r)))
      as [e2 H2].
    + now apply holds_grow.
    + intros r' Hr'. apply represents_grow, Hrs. now right.
    + eexists. rewrite H2, grow_grow. reflexivity.
Qed.

(** The array that [calc_force] over the store returns holds the force that
    [calc_force] on values computes. *)
Lemma Lavergne2019_calc_force_run (value : Imp.ref -> Colloid)
      (st : Imp.state Lavergne2019.t) (colloid : Imp.ref)
      (other_colloids : list Imp.ref) :
  (forall r, In r (colloid :: other_colloids) ->
             Imp.represents st r (value r)) ->
  let run := Imp.Lavergne2019.calc_force colloid other_colloids st in
  Imp.holds (snd run) (fst run)
            (Lavergne2019.calc_force (Imp.self st) (value colloid)
                                     (map value other_colloids)).
Proof.
  intros Hall run. subst run.
  assert (Hc : Imp.represents st colloid (value colloid))
    by (apply Hall; now left).
  assert (Hrs : forall r, In r other_colloids -> Imp.represents st r (value r))
    by (intros r Hr; apply Hall; now right).
  unfold Imp.Lavergne2019.calc_force, Lavergne2019.calc_force.
  rewrite (bind_run _ _ _ _ _ (getattr_run _ _)).
  destruct (get_colloids_in_vision_run value st colloid other_colloids
              (Lavergne2019.vision_half_angle (Imp.self st)) PInf Hc Hrs)
    as [e1 H1].
  rewrite (bind_run _ _ _ _ _ H1).
  rewrite (bind_run _ _ _ _ _ (attr_pos_run _ _)).
  rewrite (bind_run _ _ _ _ _
             (np_copy_run _ _ _ (holds_grow _ e1 _ _ (proj1 Hc)))).
  set (seen := filter _ other_colloids).
  destruct (perception_foldM_run value
              (length (Imp.arrays (Imp.grow st e1)))
              (np.copy (pos (value colloid))) seen
              (Imp.grow (Imp.grow st e1)
                        [Some (np.copy (pos (value colloid)))]) 0)
    as [e2 H2].
  - apply holds_new.
  - intros r Hr. do 2 apply represents_grow. apply Hrs.
    unfold seen in Hr. apply filter_In in Hr. tauto.
  - rewrite (bind_run _ _ _ _ _ H2).
    rewrite (bind_run _ _ _ _ _ (getattr_run _ _)).
    unfold seen. rewrite in_vision_value. cbn [Imp.self Imp.grow].
    destruct (Rgeb _ _).
    + rewrite (bind_run _ _ _ _ _ (attr_director_run _ _)).
      erewrite bind_run;
        [|apply np_copy_run; do 3 apply holds_grow; apply Hc].
      rewrite (bind_run _ _ _ _ _ (getattr_run _ _)).
      rewrite (bind_run _ _ _ _ _ (np_scale_run _ _ _ _ (holds_new _ _))).
      erewrite bind_run;
        [|apply np_linalg_norm_run, holds_grow, holds_new].
      erewrite np_div_run by apply holds_new.
      cbn [fst snd]. apply holds_new.
    + unfold Imp.np_zeros, Imp.new_array. cbn [fst snd]. apply holds_new.
Qed.

(** *** [Baeuerle2020] *)

Lemma angle_from_vector_run {P : Type} (st : Imp.state P) (a : Imp.addr)
      (v : vec3) :
  Imp.holds st a (Some v) ->
  Imp.angle_from_vector a st = (Some (angle_from_vector v), st).
Proof.
  intros H. unfold Imp.angle_from_vector.
  now rewrite (bind_run _ _ _ _ _ (read_run _ _ _ H)).
Qed.

Lemma argmin_two_bound (x y : option R) : (np.argmin [x; y] < 2)%nat.
Proof.
  destruct x as [x|], y as [y|]; cbn [np.argmin np.argmin_from];
    try destruct (Rltb y x); lia.
Qed.

Lemma mapM_vector_from_angle_two {P : Type} (st : Imp.state P) (a1 a2 : R) :
  Imp.mapM Imp.vector_from_angle [Some a1; Some a2] st
  = ([length (Imp.arrays st);
      length (Imp.arrays (Imp.grow st [Some (vector_from_angle a1)]))],
     Imp.grow (Imp.grow st [Some (vector_from_angle a1)])
              [Some (vector_from_angle a2)]).
Proof. reflexivity. Qed.

Lemma mapM_deviation_two {P : Type} (st : Imp.state P)
      (o1 o2 mean : Imp.addr) (v1 v2 : vec3) (u : Imp.cell) :
  Imp.holds st o1 (Some v1) -> Imp.holds st o2 (Some v2) ->
  Imp.holds st mean u ->
  Imp.mapM (fun new_orient =>
              Imp.bind (Imp.np_dot new_orient mean)
                       (fun cosine => Imp.ret (np.arccos cosine)))
           [o1; o2] st
  = ([np.arccos (np.dot_nan (Some v1) u);
      np.arccos (np.dot_nan (Some v2) u)], st).
Proof.
  intros H1 H2 Hm. cbn [Imp.mapM].
  erewrite bind_run;
    [|erewrite bind_run; [|apply (np_dot_run _ _ _ _ _ H1 Hm)]; reflexivity].
  erewrite bind_run;
    [|erewrite bind_run;
      [|erewrite bind_run; [|apply (np_dot_run _ _ _ _ _ H2 Hm)];
        reflexivity];
      reflexivity].
  reflexivity.
Qed.

(** The array that [_calc_force] over the store returns holds the force that
    [_calc_force] on values computes. *)
Lemma Baeuerle2020_calc_force_run (value : Imp.ref -> Colloid)
      (st : Imp.state Baeuerle2020.t) (colloid : Imp.ref)
      (other_colloids : list Imp.ref) :
  (forall r, In r (colloid :: other_colloids) ->
             Imp.represents st r (value r)) ->
  let run := Imp.Baeuerle2020.calc_force colloid other_colloids st in
  Imp.holds (snd run) (fst run)
            (Some (Baeuerle2020.calc_force (Imp.self st) (value colloid)
                                           (map value other_colloids))).
Proof.
  intros Hall run. subst run.
  assert (Hc : Imp.represents st colloid (value colloid))
    by (apply Hall; now left).
  assert (Hrs : forall r, In r other_colloids -> Imp.represents st r (value r))
    by (intros r Hr; apply Hall; now right).
  unfold Imp.Baeuerle2020.calc_force, Baeuerle2020.calc_force.
  unfold Imp.Baeuerle2020._calc_force, Baeuerle2020._calc_force.
  rewrite !(bind_run _ _ _ _ _ (getattr_run _ _)).
  destruct (get_colloids_in_vision_run value st colloid other_colloids
              (Baeuerle2020.vision_half_angle (Imp.self st))
              (Baeuerle2020.detection_radius_position (Imp.self st)) Hc Hrs)
    as [e1 H1].
  rewrite (bind_run _ _ _ _ _ H1). clear H1.
  rewrite <- !in_vision_value, !length_map.
  set (seen_pos := filter _ other_colloids).
  assert (Hpos : forall r, In r seen_pos -> Imp.represents st r (value r)).
  { intros r Hr. apply Hrs. unfold seen_pos in Hr.
    apply filter_In in Hr. tauto. }
  destruct (length seen_pos =? 0)%nat.
  { unfold Imp.np_zeros, Imp.new_array. cbn [fst snd]. apply holds_new. }
  rewrite (bind_run _ _ _ _ _ (mapM_attr_pos_run _ _)).
  erewrite bind_run;
    [|apply np_mean_stack_run, (positions_held value);
      intros r Hr; apply represents_grow, Hpos, Hr].
  rewrite (bind_run _ _ _ _ _ (attr_pos_run _ _)).
  set (com := np.mean_axis1 _).
  erewrite bind_run;
    [|apply np_sub_run; [apply holds_new | do 2 apply holds_grow; apply Hc]].
  erewrite bind_run; [|apply angle_from_vector_run, holds_new].
  rewrite (bind_run _ _ _ _ _ (getattr_run _ _)).
  set (st2 := Imp.grow (Imp.grow (Imp.grow st e1) _) _).
  assert (Hst2 : forall r, Imp.represents st r (value r) ->
                           Imp.represents st2 r (value r)).
  { intros r Hr. unfold st2. now do 3 apply represents_grow. }
  destruct (get_colloids_in_vision_run value st2 colloid other_colloids
              (Baeuerle2020.vision_half_angle (Imp.self st))
              (Baeuerle2020.detection_radius_orientation (Imp.self st))
              (Hst2 _ Hc) (fun r Hr => Hst2 r (Hrs r Hr)))
    as [e2 H2].
  cbn [Imp.self Imp.grow] in *.
  rewrite (bind_run _ _ _ _ _ H2). clear H2.
  set (seen_ori := filter _ other_colloids).
  assert (Hori : forall r, In r seen_ori -> Imp.represents st r (value r)).
  { intros r Hr. apply Hrs. unfold seen_ori in Hr.
    apply filter_In in Hr. tauto. }
  destruct (length seen_ori =? 0)%nat.
  { unfold Imp.np_zeros, Imp.new_array. cbn [fst snd]. apply holds_new. }
  rewrite (bind_run _ _ _ _ _ (mapM_attr_director_run _ _)).
  erewrite bind_run;
    [|apply np_mean_stack_run, (directors_held value);
      intros r Hr; apply represents_grow, Hst2, Hori, Hr].
  set (mean := np.mean_axis1 (np.stack_axis1 (map director _))).
  erewrite bind_run; [|apply np_linalg_norm_run, holds_new].
  set (m := length (Imp.arrays (Imp.grow st2 e2))).
  destruct (np_idiv_run (Imp.grow (Imp.grow st2 e2) [Some mean]) m mean
              (np.linalg_norm mean) (holds_new _ _))
    as (stw & Hw & Hm & _ & Hself).
  rewrite (bind_run _ _ _ _ _ Hw). clear Hw.
  rewrite (bind_run _ _ _ _ _ (getattr_run _ _)).
  rewrite Hself. cbn [Imp.self Imp.grow Imp.lift1].
  rewrite (bind_run _ _ _ _ _ (mapM_vector_from_angle_two _ _ _)).
  set (a1 := angle_from_vector _ + _). set (a2 := angle_from_vector _ - _).
  erewrite bind_run;
    [|apply (mapM_deviation_two _ _ _ m (vector_from_angle a1)
               (vector_from_angle a2) (np.div mean (np.linalg_norm mean)));
      [apply holds_grow, holds_new | apply holds_new
      | do 2 apply holds_grow; exact Hm]].
  rewrite (bind_run _ _ _ _ _ (getattr_run _ _)).
  cbn [Imp.self Imp.grow map]. rewrite Hself. cbn [Imp.self].
  set (devs := [np.arccos _; np.arccos _]).
  pose proof (argmin_two_bound
                (np.arccos (np.dot_nan (Some (vector_from_angle a1))
                              (np.div mean (np.linalg_norm mean))))
                (np.arccos (np.dot_nan (Some (vector_from_angle a2))
                              (np.div mean (np.linalg_norm mean)))))
    as Hi.
  fold devs in Hi.
  destruct (np.argmin devs) as [|[|i]]; [| |lia]; cbn [nth].
  - erewrite np_scale_run by (apply holds_grow, holds_new).
    cbn [fst snd]. apply holds_new.
  - erewrite np_scale_run by apply holds_new.
    cbn [fst snd]. apply holds_new.
Qed.
(** ** The example inputs *)

Lemma focal_director_unit : np.linalg_norm (director focal) = 1.
Proof.
  unfold np.linalg_norm, focal; simpl.
  replace (1 * 1 + 0 * 0 + 0 * 0) with 1 by ring. apply sqrt_1.
Qed.

Lemma neighbour_distance : distance focal neighbour = 1.
Proof.
  unfold distance, np.linalg_norm, np.sub, focal, neighbour; simpl.
  replace ((1 - 0) * (1 - 0) + (0 - 0) * (0 - 0) + (0 - 0) * (0 - 0))
    with 1 by ring.
  apply sqrt_1.
Qed.


Lemma neighbour_angle : angle_to focal neighbour = 0.
Proof.
  unfold angle_to. rewrite neighbour_distance.
  unfold np.dot, np.sub, focal, neighbour; simpl.
  replace ((1 - 0) / 1 * 1 + (0 - 0) / 1 * 0 + (0 - 0) / 1 * 0) with 1
    by field.
  apply acos_1.
Qed.

(** [focal] sees [neighbour] at a right angle within any range of more than
    one unit. *)
Lemma neighbour_in_vision_range (vr : ereal) :
  lt_ereal 1 vr = true ->
  get_colloids_in_vision focal [neighbour] (PI / 2) vr = [neighbour].
Proof.
  intros Hr. rewrite get_colloids_in_vision_filter. cbn [filter].
  rewrite in_front_and_in_range_spec.
  - unfold in_vision_spec. rewrite neighbour_distance, neighbour_angle, Hr.
    assert (H2 : Rltb 0 (PI / 2) = true)
      by (apply Rltb_true; pose proof PI_RGT_0; lra).
    now rewrite H2.
  - exact focal_director_unit.
  - rewrite neighbour_distance. lra.
Qed.

(** A colloid at the position of the focal one is not seen: the direction
    to it is [nan]. *)
Example coincident_not_seen :
  get_colloids_in_vision focal [focal] (PI / 2) PInf = [].
Proof.
  rewrite get_colloids_in_vision_filter. cbn [filter].
  destruct (in_front_and_in_range focal (PI / 2) PInf focal) eqn:H;
    [|reflexivity].
  apply in_front_and_in_range_nonzero in H. exfalso. apply H.
  unfold distance, np.linalg_norm, np.sub, focal; simpl.
  replace ((0 - 0) * (0 - 0) + (0 - 0) * (0 - 0) + (0 - 0) * (0 - 0))
    with 0 by ring.
  apply sqrt_0.
Qed.

(** With the default parameters one neighbour at unit distance gives the
    perception [1 / (2 pi)], below the threshold 1: no force. *)
Example lavergne_default_inactive :
  Lavergne2019.calc_force Lavergne2019.init_default focal [neighbour]
  = Some (V3 0 0 0).
Proof.
  unfold Lavergne2019.calc_force. cbn [Lavergne2019.vision_half_angle
    Lavergne2019.perception_threshold Lavergne2019.init_default].
  rewrite neighbour_in_vision_range by reflexivity.
  rewrite perception_loop_sum. cbn [map Rsum fold_right].
  rewrite neighbour_distance.
  assert (H : Rgeb (0 + (1 / (2 * PI * 1) + 0)) 1 = false).
  { apply Rgeb_false. pose proof PI2_1 as Hpi.
    assert (Hlt : 1 / (2 * PI * 1) < 1).
    { apply Rmult_lt_reg_r with (2 * PI * 1); [lra|].
      unfold Rdiv. rewrite Rmult_assoc, Rinv_l by lra. lra. }
    lra. }
  now rewrite H.
Qed.

(** With a threshold of zero the same colloid is pushed along its
    director. *)
Example lavergne_active :
  Lavergne2019.calc_force (Lavergne2019.mk (PI / 2) 3 0) focal [neighbour]
  = Some (V3 3 0 0).
Proof.
  unfold Lavergne2019.calc_force. cbn [Lavergne2019.vision_half_angle
    Lavergne2019.perception_threshold Lavergne2019.act_force].
  rewrite neighbour_in_vision_range by reflexivity.
  rewrite perception_loop_sum. cbn [map Rsum fold_right].
  rewrite neighbour_distance.
  assert (H : Rgeb (0 + (1 / (2 * PI * 1) + 0)) 0 = true).
  { apply Rgeb_true. pose proof PI_RGT_0 as Hpi.
    assert (Hlt : 0 < 1 / (2 * PI * 1)).
    { apply Rdiv_lt_0_compat; lra. }
    lra. }
  rewrite H, copy_id, focal_director_unit.
  rewrite div_nonzero by lra. f_equal.
  apply vec3_eq; simpl; field.
Qed.

Lemma neighbour_in_vision :
  get_colloids_in_vision focal [neighbour] (PI / 2) (Fin 2) = [neighbour].
Proof.
  apply neighbour_in_vision_range. cbn [lt_ereal]. apply Rltb_true. lra.
Qed.

Lemma neighbour_seen :
  get_colloids_in_vision focal [neighbour] (PI / 2) (Fin 2) <> [].
Proof. rewrite neighbour_in_vision. discriminate. Qed.


Lemma vec_mean_singleton (v : vec3) : vec_mean [v] = v.
Proof.
  unfold vec_mean, vec_sum, vec_add, np.scale; simpl.
  apply vec3_eq; simpl; field.
Qed.

Lemma arctan2_ahead : np.arctan2 0 1 = 0.
Proof.
  unfold np.arctan2.
  assert (H : Rltb 0 1 = true) by (apply Rltb_true; lra).
  rewrite H. replace (0 / 1) with 0 by field. apply atan_0.
Qed.

(** The neighbour is straight ahead with the same director, so the two
    candidate angles 1 and -1 deviate equally from the mean orientation, and
    the force takes the first. *)
Example baeuerle_example_force :
  Baeuerle2020.calc_force baeuerle_example focal [neighbour]
  = V3 (cos 1) (sin 1) 0.
Proof.
  unfold Baeuerle2020.calc_force.
  rewrite (_calc_force_nonempty baeuerle_example focal [neighbour]
             neighbour_seen neighbour_seen).
  cbv zeta. cbn [Baeuerle2020.vision_half_angle
                 Baeuerle2020.detection_radius_position
                 Baeuerle2020.detection_radius_orientation
                 Baeuerle2020.angular_deviation Baeuerle2020.act_force
                 baeuerle_example].
  rewrite neighbour_in_vision. cbn [map]. rewrite !vec_mean_singleton.
  replace (np.sub (pos neighbour) (pos focal)) with (V3 1 0 0)
    by (apply vec3_eq; simpl; ring).
  cbn [vx vy]. rewrite arctan2_ahead.
  assert (Hu : unit_vector (director neighbour) = Some (V3 1 0 0)).
  { unfold unit_vector. change (director neighbour) with (director focal).
    rewrite focal_director_unit, div_nonzero by lra.
    f_equal. apply vec3_eq; simpl; field. }
  rewrite Hu. unfold smaller_deviation.
  assert (Htie : deviation (0 + 1) (V3 1 0 0) = deviation (0 - 1) (V3 1 0 0)).
  { unfold deviation, np.dot; simpl. f_equal.
    replace (0 - 1) with (Ropp 1) by ring. replace (0 + 1) with 1 by ring.
    rewrite cos_neg. ring. }
  assert (Hle : Rleb (deviation (0 + 1) (V3 1 0 0))
                     (deviation (0 - 1) (V3 1 0 0)) = true)
    by (apply Rleb_true; rewrite Htie; lra).
  rewrite Hle. replace (0 + 1) with 1 by ring.
  apply vec3_eq; simpl; ring.
Qed.

(** Over the store of the example the call returns a new array with that
    same force. *)
Example store_example_force :
  let run :=
    Imp.Baeuerle2020.calc_force 0%nat [1%nat]
                                (store_example baeuerle_example) in
  Imp.holds (snd run) (fst run) (Some (V3 (cos 1) (sin 1) 0))
  /\ (4 <= fst run)%nat.
Proof.
  intros run. split.
  - rewrite <- baeuerle_example_force.
    apply (Baeuerle2020_calc_force_run store_example_value
             (store_example baeuerle_example) 0%nat [1%nat]).
    intros r [<-|[<-|[]]]; split; reflexivity.
  - apply (Baeuerle2020_calc_force_keeps 4 0%nat [1%nat]
             (store_example baeuerle_example)).
    simpl. lia.
Qed.

(** ** The theorems at the example inputs *)



Lemma Baeuerle2020_calc_force_empty_witness :
  (get_colloids_in_vision focal [] (PI / 2) (Fin 2) = []
   \/ get_colloids_in_vision focal [] (PI / 2) (Fin 2) = [])
  /\ Baeuerle2020.calc_force baeuerle_example focal [] = V3 0 0 0.
Proof.
  split; [left; reflexivity|].
  apply (Baeuerle2020_calc_force_empty baeuerle_example focal []).
  left; reflexivity.
Defined.

Lemma Baeuerle2020_calc_force_norm_witness :
  get_colloids_in_vision focal [neighbour] (PI / 2) (Fin 2) <> []
  /\ get_colloids_in_vision focal [neighbour] (PI / 2) (Fin 2) <> []
  /\ np.linalg_norm (Baeuerle2020.calc_force baeuerle_example focal
                                             [neighbour]) = Rabs 1
  /\ vz (Baeuerle2020.calc_force baeuerle_example focal [neighbour]) = 0.
Proof.
  split; [exact neighbour_seen|]. split; [exact neighbour_seen|].
  exact (Baeuerle2020_calc_force_norm baeuerle_example focal [neighbour]
           neighbour_seen neighbour_seen).
Defined.


Lemma network_example_outputs (f : unit) :
  (1 <= length (network_example f) <= 4)%nat.
Proof. simpl; lia. Qed.

Lemma sample_last_range (probs : list R) (g : unit) :
  probs <> [] -> (fst (sample_last probs g) < length probs)%nat.
Proof. destruct probs; [easy | simpl; lia]. Qed.

Lemma MLModel_calc_action_spec_witness :
  (forall f, (1 <= length (network_example f) <= 4)%nat)
  /\ (forall probs g0,
         probs <> [] -> (fst (sample_last probs g0) < length probs)%nat)
  /\ exists st,
      MLModel.calc_action observable_example network_example sample_last
                          twins [0; 1; 0]%nat tt = Some st
      /\ length (MLModel.actions_so_far st) = length [0; 1; 0]%nat
      /\ Forall (fun a =>
                   a = MLModel.mkAction None (Some (V3 0 0 (1 / 10)))
                   \/ a = MLModel.mkAction (Some 10) None
                   \/ a = MLModel.mkAction None (Some (V3 0 0 (- (1 / 10))))
                   \/ a = MLModel.mkAction None None)
                (MLModel.actions_so_far st)
      /\ MLModel.actions_so_far st
         = map (fun idx => nth idx MLModel.action_table MLModel.do_nothing)
               (MLModel.sampled_indices observable_example network_example
                  sample_last twins [0; 1; 0]%nat [0; 1; 0]%nat tt).
Proof.
  split; [exact network_example_outputs|].
  split; [exact sample_last_range|].
  destruct (MLModel_calc_action_spec observable_example network_example
              sample_last twins [0; 1; 0]%nat tt) as [Hresult Hreturns].
  destruct (Hreturns network_example_outputs sample_last_range) as [st Hst].
  exists st. split; [exact Hst | exact (Hresult st Hst)].
Defined.


(** The run of the example: the twins are told apart, and the object that
    is twice in the input is left out of its own list both times. *)
Example calc_action_twins :
  exists st,
    MLModel.calc_action observable_example network_example sample_last
                        twins [0; 1; 0]%nat tt = Some st
    /\ MLModel.observable_calls st
       = [(0, [1]); (1, [0; 0]); (0, [1])]%nat
    /\ MLModel.actions_so_far st
       = [MLModel.do_nothing; MLModel.do_nothing; MLModel.do_nothing].
Proof. eexists. repeat split. Qed.

(** A network with five outputs can make the sampler return index 4, past
    the four actions: the lookup raises. *)
Example calc_action_index_error :
  MLModel.calc_action observable_example (fun _ => [0; 0; 0; 0; 0])
                      sample_last twins [0]%nat tt = None.
Proof. reflexivity. Qed.

Lemma store_example_allocated {P : Type} (self : P) :
  Forall (Imp.allocated (store_example self)) [0; 1]%nat.
Proof.
  repeat constructor; unfold Imp.allocated; simpl; lia.
Qed.

Lemma calc_force_calc_torque_frame_witness :
  Forall (Imp.allocated (store_example Lavergne2019.init_default))
         [0; 1]%nat
  /\ Forall (Imp.allocated (store_example baeuerle_example)) [0; 1]%nat
  /\ Imp.unchanged [0; 1]%nat (store_example Lavergne2019.init_default)
       (snd (Imp.Lavergne2019.calc_force 0%nat [1]%nat
               (store_example Lavergne2019.init_default)))
  /\ Imp.unchanged [0; 1]%nat (store_example Lavergne2019.init_default)
       (snd (Imp.Lavergne2019.calc_torque 0%nat [1]%nat
               (store_example Lavergne2019.init_default)))
  /\ Imp.unchanged [0; 1]%nat (store_example baeuerle_example)
       (snd (Imp.Baeuerle2020.calc_force 0%nat [1]%nat
               (store_example baeuerle_example)))
  /\ Imp.unchanged [0; 1]%nat (store_example baeuerle_example)
       (snd (Imp.Baeuerle2020.calc_torque 0%nat [1]%nat
               (store_example baeuerle_example))).
Proof.
  split; [exact (store_example_allocated Lavergne2019.init_default)|].
  split; [exact (store_example_allocated baeuerle_example)|].
  exact (calc_force_calc_torque_frame 0%nat [1]%nat
           (store_example Lavergne2019.init_default)
           (store_example baeuerle_example)
           (store_example_allocated Lavergne2019.init_default)
           (store_example_allocated baeuerle_example)).
Defined.

(** * Further properties of the code *)

(** ** [get_colloids_in_vision] *)

(** X1.  Every colloid is judged on its own: the colloids seen in a
    concatenation are those seen in its first part followed by those seen
    in its second part. *)
Theorem get_colloids_in_vision_app (coll : Colloid) (l1 l2 : list Colloid)
        (vision_half_angle : R) (vision_range : ereal) :
  get_colloids_in_vision coll (l1 ++ l2) vision_half_angle vision_range
  = get_colloids_in_vision coll l1 vision_half_angle vision_range
    ++ get_colloids_in_vision coll l2 vision_half_angle vision_range.
Proof. rewrite !get_colloids_in_vision_filter. apply filter_app. Qed.

Lemma lt_ereal_mono (x : R) (a b : ereal) :
  le_ereal a b -> lt_ereal x a = true -> lt_ereal x b = true.
Proof.
  destruct a as [a|], b as [b|]; simpl; try easy.
  rewrite !Rltb_true. lra.
Qed.

Lemma nan_ltb_mono (x : option R) (a b : R) :
  a <= b -> nan_ltb x a = true -> nan_ltb x b = true.
Proof.
  destruct x as [x|]; simpl; [|easy]. rewrite !Rltb_true. lra.
Qed.

(** X2.  A wider cone and a longer range see more: every colloid seen with
    half angle [a] and range [r] is seen with any half angle [a' >= a] and
    range [r' >= r]. *)
Theorem get_colloids_in_vision_mono (coll : Colloid) (l : list Colloid)
        (a a' : R) (r r' : ereal) :
  a <= a' -> le_ereal r r' ->
  forall c,
    In c (get_colloids_in_vision coll l a r) ->
    In c (get_colloids_in_vision coll l a' r').
Proof.
  intros Ha Hr c. rewrite !get_colloids_in_vision_filter, !filter_In.
  intros [Hin Hc]. split; [exact Hin|].
  unfold in_front_and_in_range, in_front_and_in_range_from in *.
  apply andb_true_iff in Hc. destruct Hc as [Hf Hrange].
  apply andb_true_iff. split.
  - exact (nan_ltb_mono _ _ _ Ha Hf).
  - exact (lt_ereal_mono _ _ _ Hr Hrange).
Qed.

Lemma norm_zero_vector : np.linalg_norm (V3 0 0 0) = 0.
Proof. now apply norm_zero_iff. Qed.

Lemma same_position_not_seen (coll c : Colloid) (vha : R) (vr : ereal) :
  pos c = pos coll -> in_front_and_in_range coll vha vr c = false.
Proof.
  intros Hp. destruct (in_front_and_in_range coll vha vr c) eqn:H;
    [|reflexivity].
  apply in_front_and_in_range_nonzero in H. exfalso. apply H.
  unfold distance. rewrite Hp. apply norm_zero_iff.
  apply vec3_eq; simpl; ring.
Qed.

(** X3.  A colloid at the position of the focal one is never seen, whatever
    the half angle and the range: the direction to it is [nan].  So no
    returned colloid has the position of the focal one, and the focal
    colloid itself, when it is in the list, is dropped. *)
Theorem get_colloids_in_vision_not_self (coll : Colloid) (l : list Colloid)
        (vision_half_angle : R) (vision_range : ereal) :
  (forall c,
      In c (get_colloids_in_vision coll l vision_half_angle vision_range) ->
      pos c <> pos coll)
  /\ (forall l1 l2,
         get_colloids_in_vision coll (l1 ++ coll :: l2) vision_half_angle
                                vision_range
         = get_colloids_in_vision coll (l1 ++ l2) vision_half_angle
                                  vision_range).
Proof.
  split.
  - intros c. rewrite get_colloids_in_vision_filter, filter_In.
    intros [_ Hc] Hp.
    rewrite (same_position_not_seen coll c _ _ Hp) in Hc. discriminate Hc.
  - intros l1 l2. rewrite !get_colloids_in_vision_filter, !filter_app.
    cbn [filter]. now rewrite (same_position_not_seen coll coll _ _ eq_refl).
Qed.

Lemma arccos_nonneg (x : option R) (a : R) :
  np.arccos x = Some a -> 0 <= a <= PI.
Proof.
  destruct x as [x|]; simpl; [|discriminate].
  destruct (Rleb (-1) x && Rleb x 1); [|discriminate].
  intros [= <-]. apply acos_bound.
Qed.

(** X4.  With a half angle of zero or less nothing is seen: an angle is
    never negative. *)
Theorem get_colloids_in_vision_closed_cone (coll : Colloid)
        (l : list Colloid) (vision_half_angle : R) (vision_range : ereal) :
  vision_half_angle <= 0 ->
  get_colloids_in_vision coll l vision_half_angle vision_range = [].
Proof.
  intros Ha. rewrite get_colloids_in_vision_filter.
  induction l as [|c l IH]; [reflexivity|]. cbn [filter]. rewrite IH.
  unfold in_front_and_in_range, in_front_and_in_range_from.
  destruct (np.arccos _) as [a|] eqn:Hacos; [|reflexivity].
  apply arccos_nonneg in Hacos. cbn [nan_ltb].
  assert (H : Rltb a vision_half_angle = false) by (apply Rltb_false; lra).
  now rewrite H.
Qed.


(** ** [angle_from_vector] and [vector_from_angle] *)

Lemma tan_shift_PI (a : R) : cos a <> 0 -> tan (a + PI) = tan a.
Proof.
  intros Hc. unfold tan. rewrite neg_sin, neg_cos. field. exact Hc.
Qed.

Lemma arctan2_sin_cos (a : R) :
  - PI < a <= PI -> np.arctan2 (sin a) (cos a) = a.
Proof.
  intros [Hlo Hhi]. pose proof PI_RGT_0 as Hpi. unfold np.arctan2.
  destruct (Rlt_dec a (- (PI / 2))) as [H1|H1].
  { (* the third quadrant *)
    assert (Hc : cos a < 0).
    { rewrite <- cos_neg. apply cos_lt_0; lra. }
    assert (Hs : sin a < 0) by (apply sin_lt_0_var; lra).
    assert (E1 : Rltb 0 (cos a) = false) by (apply Rltb_false; lra).
    assert (E2 : Rltb (cos a) 0 = true) by (apply Rltb_true; lra).
    assert (E3 : Rleb 0 (sin a) = false) by (apply Rleb_false; lra).
    rewrite E1, E2, E3. fold (tan a).
    rewrite <- (tan_shift_PI a) by lra.
    rewrite atan_tan by lra. ring. }
  destruct (Req_dec_T a (- (PI / 2))) as [H2|H2].
  { subst a. rewrite cos_neg, sin_neg, cos_PI2, sin_PI2.
    assert (E1 : Rltb 0 0 = false) by (apply Rltb_false; lra).
    assert (E2 : Rltb 0 (- (1)) = false) by (apply Rltb_false; lra).
    assert (E3 : Rltb (- (1)) 0 = true) by (apply Rltb_true; lra).
    now rewrite E1, E2, E3. }
  destruct (Rlt_dec a (PI / 2)) as [H3|H3].
  { (* the right half plane *)
    assert (Hc : 0 < cos a) by (apply cos_gt_0; lra).
    assert (E1 : Rltb 0 (cos a) = true) by (apply Rltb_true; lra).
    rewrite E1. fold (tan a). apply atan_tan. lra. }
  destruct (Req_dec_T a (PI / 2)) as [H4|H4].
  { subst a. rewrite cos_PI2, sin_PI2.
    assert (E1 : Rltb 0 0 = false) by (apply Rltb_false; lra).
    assert (E2 : Rltb 0 1 = true) by (apply Rltb_true; lra).
    now rewrite E1, E2. }
  (* the second quadrant *)
  assert (Hc : cos a < 0) by (apply cos_lt_0; lra).
  assert (Hs : 0 <= sin a) by (apply sin_ge_0; lra).
  assert (E1 : Rltb 0 (cos a) = false) by (apply Rltb_false; lra).
  assert (E2 : Rltb (cos a) 0 = true) by (apply Rltb_true; lra).
  assert (E3 : Rleb 0 (sin a) = true) by (apply Rleb_true; lra).
  rewrite E1, E2, E3. fold (tan a).
  assert (Hc' : cos (a - PI) <> 0).
  { intros H. pose proof (neg_cos (a - PI)) as Hn.
    replace (a - PI + PI) with a in Hn by ring. lra. }
  assert (Ht : tan a = tan (a - PI)).
  { rewrite <- (tan_shift_PI (a - PI) Hc'). f_equal. ring. }
  rewrite Ht, atan_tan by lra. ring.
Qed.

(** X6.  Round trip from an angle: for an angle [a] in (-pi, pi] the angle of
    the vector of angle [a] is [a]. *)
Theorem angle_from_vector_from_angle (angle : R) :
  - PI < angle <= PI ->
  angle_from_vector (vector_from_angle angle) = angle.
Proof.
  intros H. unfold angle_from_vector, vector_from_angle. cbn [vx vy].
  now apply arctan2_sin_cos.
Qed.


Lemma sqrt_one_plus_sqr_ratio (x y : R) :
  x <> 0 ->
  sqrt (1 + (y / x)²) = sqrt (x * x + y * y) / Rabs x.
Proof.
  intros Hx.
  replace (1 + (y / x)²) with ((x * x + y * y) / (x * x))
    by (unfold Rsqr; field; exact Hx).
  rewrite sqrt_div_alt by nra.
  f_equal. fold (Rsqr x). apply sqrt_Rsqr_abs.
Qed.

Lemma planar_norm_pos (x y : R) :
  x <> 0 \/ y <> 0 -> 0 < sqrt (x * x + y * y).
Proof. intros H. apply sqrt_lt_R0. destruct H; nra. Qed.

Lemma cos_sin_arctan2 (x y : R) :
  x <> 0 \/ y <> 0 ->
  let r := sqrt (x * x + y * y) in
  cos (np.arctan2 y x) = x / r /\ sin (np.arctan2 y x) = y / r.
Proof.
  intros Hxy r. pose proof (planar_norm_pos x y Hxy) as Hr. fold r in Hr.
  unfold np.arctan2.
  destruct (Rltb 0 x) eqn:Hx0.
  { apply Rltb_true in Hx0.
    rewrite cos_atan, sin_atan, sqrt_one_plus_sqr_ratio by lra.
    fold r. rewrite (Rabs_right x) by lra. split; field; lra. }
  apply Rltb_false in Hx0.
  destruct (Rltb x 0) eqn:Hx1.
  { apply Rltb_true in Hx1.
    assert (Hc : cos (atan (y / x)) = - x / r).
    { rewrite cos_atan, sqrt_one_plus_sqr_ratio by lra.
      fold r. rewrite (Rabs_left x) by lra. field; lra. }
    assert (Hs : sin (atan (y / x)) = - y / r).
    { rewrite sin_atan, sqrt_one_plus_sqr_ratio by lra.
      fold r. rewrite (Rabs_left x) by lra. field; lra. }
    destruct (Rleb 0 y).
    - rewrite neg_cos, neg_sin, Hc, Hs. split; field; lra.
    - pose proof (neg_cos (atan (y / x) - PI)) as Hnc.
      pose proof (neg_sin (atan (y / x) - PI)) as Hns.
      replace (atan (y / x) - PI + PI) with (atan (y / x)) in Hnc, Hns
        by ring.
      assert (Hc' : cos (atan (y / x) - PI) = x / r).
      { replace (x / r) with (- (- x / r)) by (field; lra). lra. }
      assert (Hs' : sin (atan (y / x) - PI) = y / r).
      { replace (y / r) with (- (- y / r)) by (field; lra). lra. }
      now split. }
  apply Rltb_false in Hx1.
  assert (Hx : x = 0) by lra. subst x.
  assert (Hy : y <> 0) by (destruct Hxy; [lra | assumption]).
  assert (Hrabs : r = Rabs y).
  { unfold r. replace (0 * 0 + y * y) with (Rsqr y) by (unfold Rsqr; ring).
    apply sqrt_Rsqr_abs. }
  destruct (Rltb 0 y) eqn:Hy0.
  { apply Rltb_true in Hy0. rewrite cos_PI2, sin_PI2, Hrabs.
    rewrite (Rabs_right y) by lra. split; field; lra. }
  apply Rltb_false in Hy0.
  assert (Hy1 : Rltb y 0 = true) by (apply Rltb_true; lra).
  rewrite Hy1, cos_neg, sin_neg, cos_PI2, sin_PI2, Hrabs.
  rewrite (Rabs_left y) by lra. split; field; lra.
Qed.

Lemma vector_from_angle_from_vector_aux (vec : vec3) :
  vx vec <> 0 \/ vy vec <> 0 ->
  let r := sqrt (vx vec * vx vec + vy vec * vy vec) in
  vector_from_angle (angle_from_vector vec) = V3 (vx vec / r) (vy vec / r) 0.
Proof.
  intros H r. unfold vector_from_angle, angle_from_vector.
  destruct (cos_sin_arctan2 (vx vec) (vy vec) H) as [Hc Hs].
  fold r in Hc, Hs. now rewrite Hc, Hs.
Qed.

(** X8.  Round trip from a vector: the vector of the angle of [vec] is the
    projection of [vec] on the x-y plane scaled to unit norm, when that
    projection is not zero. *)
Theorem vector_from_angle_from_vector (vec : vec3) :
  vx vec <> 0 \/ vy vec <> 0 ->
  let r := sqrt (vx vec * vx vec + vy vec * vy vec) in
  vector_from_angle (angle_from_vector vec) = V3 (vx vec / r) (vy vec / r) 0.
Proof. exact (vector_from_angle_from_vector_aux vec). Qed.

(** ** [Lavergne2019] *)

(** The force by cases on the perception. *)
Lemma Lavergne2019_calc_force_cases (self : Lavergne2019.t)
      (colloid : Colloid) (other_colloids : list Colloid) :
  Lavergne2019.calc_force self colloid other_colloids
  = if Rgeb (perception_spec (Lavergne2019.vision_half_angle self) colloid
                             other_colloids)
            (Lavergne2019.perception_threshold self)
    then option_map (np.scale (Lavergne2019.act_force self))
                    (unit_vector (director colloid))
    else Some np.zeros3.
Proof.
  unfold Lavergne2019.calc_force.
  rewrite perception_loop_sum, Rplus_0_l.
  fold (perception_spec (Lavergne2019.vision_half_angle self) colloid
                        other_colloids).
  destruct (Rgeb _ _); [|reflexivity].
  rewrite copy_id. unfold unit_vector, np.div.
  destruct (Req_dec_T _ 0) as [|Hn]; [reflexivity|].
  cbn [option_map]. f_equal. apply vec3_eq; simpl; field; exact Hn.
Qed.




(** X10.  With a positive threshold a colloid that sees nobody is passive:
    the force is zero. *)
Theorem Lavergne2019_alone_passive (self : Lavergne2019.t)
        (colloid : Colloid) (other_colloids : list Colloid) :
  0 < Lavergne2019.perception_threshold self ->
  get_colloids_in_vision colloid other_colloids
    (Lavergne2019.vision_half_angle self) PInf = [] ->
  Lavergne2019.calc_force self colloid other_colloids = Some (V3 0 0 0).
Proof.
  intros Hthr Hnone. rewrite Lavergne2019_calc_force_cases.
  unfold perception_spec. rewrite Hnone. cbn [map Rsum fold_right].
  assert (H : Rgeb 0 (Lavergne2019.perception_threshold self) = false)
    by (apply Rgeb_false; lra).
  now rewrite H.
Qed.



Lemma filter_Permutation {A : Type} (f : A -> bool) (l l' : list A) :
  Permutation l l' -> Permutation (filter f l) (filter f l').
Proof.
  induction 1 as [|x l l' _ IH|x y l|l l' l'' _ IH1 _ IH2]; simpl.
  - constructor.
  - destruct (f x); [now constructor | exact IH].
  - destruct (f x), (f y); try reflexivity. constructor.
  - now transitivity (filter f l').
Qed.

Lemma Rsum_Permutation (l l' : list R) :
  Permutation l l' -> Rsum l = Rsum l'.
Proof.
  induction 1 as [|x l l' _ IH|x y l|l l' l'' _ IH1 _ IH2]; simpl; lra.
Qed.

Lemma get_colloids_in_vision_Permutation (coll : Colloid)
      (l l' : list Colloid) (vha : R) (vr : ereal) :
  Permutation l l' ->
  Permutation (get_colloids_in_vision coll l vha vr)
              (get_colloids_in_vision coll l' vha vr).
Proof.
  intros H. rewrite !get_colloids_in_vision_filter.
  now apply filter_Permutation.
Qed.

(** X12.  The force of [Lavergne2019] does not depend on the order of the
    other colloids. *)
Theorem Lavergne2019_calc_force_Permutation (self : Lavergne2019.t)
        (colloid : Colloid) (l l' : list Colloid) :
  Permutation l l' ->
  Lavergne2019.calc_force self colloid l
  = Lavergne2019.calc_force self colloid l'.
Proof.
  intros H. rewrite !Lavergne2019_calc_force_cases.
  assert (Hp : perception_spec (Lavergne2019.vision_half_angle self)
                               colloid l
               = perception_spec (Lavergne2019.vision_half_angle self)
                                 colloid l').
  { unfold perception_spec. apply Rsum_Permutation, Permutation_map.
    now apply get_colloids_in_vision_Permutation. }
  now rewrite Hp.
Qed.

(** ** Moving every colloid by the same vector *)

Lemma filter_map_swap' {A B : Type} (f : B -> bool) (g : A -> B)
      (l : list A) :
  filter f (map g l) = map g (filter (fun x => f (g x)) l).
Proof.
  induction l as [|x l IH]; simpl; [reflexivity|].
  destruct (f (g x)); simpl; now rewrite IH.
Qed.

Lemma sub_translate (a b t : vec3) :
  np.sub (vec_add a t) (vec_add b t) = np.sub a b.
Proof. apply vec3_eq; simpl; ring. Qed.

Lemma in_front_and_in_range_translate (t : vec3) (coll c : Colloid)
      (vha : R) (vr : ereal) :
  in_front_and_in_range (translate t coll) vha vr (translate t c)
  = in_front_and_in_range coll vha vr c.
Proof.
  unfold in_front_and_in_range, in_front_and_in_range_from.
  rewrite !array_id. cbn [pos director translate].
  now rewrite sub_translate.
Qed.

Lemma vision_translate (t : vec3) (coll : Colloid) (l : list Colloid)
      (vha : R) (vr : ereal) :
  get_colloids_in_vision (translate t coll) (map (translate t) l) vha vr
  = map (translate t) (get_colloids_in_vision coll l vha vr).
Proof.
  rewrite !get_colloids_in_vision_filter, filter_map_swap'.
  f_equal. apply filter_ext. intros c.
  apply in_front_and_in_range_translate.
Qed.

(** X13.  The vision does not depend on where the origin is: when the focal
    colloid and all the others are moved by the same vector, the colloids
    seen are the moved ones of those seen before. *)
Theorem get_colloids_in_vision_translate (t : vec3) (coll : Colloid)
        (l : list Colloid) (vision_half_angle : R) (vision_range : ereal) :
  get_colloids_in_vision (translate t coll) (map (translate t) l)
                         vision_half_angle vision_range
  = map (translate t)
        (get_colloids_in_vision coll l vision_half_angle vision_range).
Proof. apply vision_translate. Qed.

Lemma distance_translate (t : vec3) (coll c : Colloid) :
  distance (translate t coll) (translate t c) = distance coll c.
Proof. unfold distance. cbn [pos translate]. now rewrite sub_translate. Qed.

(** X14.  The force of [Lavergne2019] is the same after every colloid is
    moved by the same vector. *)
Theorem Lavergne2019_calc_force_translate (self : Lavergne2019.t)
        (t : vec3) (colloid : Colloid) (other_colloids : list Colloid) :
  Lavergne2019.calc_force self (translate t colloid)
                          (map (translate t) other_colloids)
  = Lavergne2019.calc_force self colloid other_colloids.
Proof.
  rewrite !Lavergne2019_calc_force_cases.
  assert (Hp : perception_spec (Lavergne2019.vision_half_angle self)
                 (translate t colloid) (map (translate t) other_colloids)
               = perception_spec (Lavergne2019.vision_half_angle self)
                                 colloid other_colloids).
  { unfold perception_spec.
    rewrite vision_translate, map_map.
    f_equal. apply map_ext. intros c. now rewrite distance_translate. }
  now rewrite Hp.
Qed.

(** ** [Baeuerle2020] *)

(** The force by cases on the two vision sets. *)
Lemma _calc_force_steer (self : Baeuerle2020.t) (colloid : Colloid)
      (other_colloids : list Colloid) :
  let seen_pos :=
    get_colloids_in_vision colloid other_colloids
      (Baeuerle2020.vision_half_angle self)
      (Baeuerle2020.detection_radius_position self) in
  let seen_ori :=
    get_colloids_in_vision colloid other_colloids
      (Baeuerle2020.vision_half_angle self)
      (Baeuerle2020.detection_radius_orientation self) in
  Baeuerle2020._calc_force self colloid other_colloids
  = if ((length seen_pos =? 0) || (length seen_ori =? 0))%nat
    then np.zeros3
    else steer (Baeuerle2020.act_force self)
               (Baeuerle2020.angular_deviation self)
               (np.sub (vec_mean (map pos seen_pos)) (pos colloid))
               (vec_mean (map director seen_ori)).
Proof.
  intros seen_pos seen_ori.
  destruct (length seen_pos =? 0)%nat eqn:Hp.
  - apply _calc_force_empty. left. now apply length_eqb_0.
  - destruct (length seen_ori =? 0)%nat eqn:Ho.
    + apply _calc_force_empty. right. now apply length_eqb_0.
    + cbn [orb].
      assert (Hp' : seen_pos <> [])
        by (intros H; apply length_eqb_0 in H; congruence).
      assert (Ho' : seen_ori <> [])
        by (intros H; apply length_eqb_0 in H; congruence).
      rewrite (_calc_force_nonempty self colloid other_colloids Hp' Ho').
      reflexivity.
Qed.

Lemma vec_sum_Permutation (l l' : list vec3) :
  Permutation l l' -> vec_sum l = vec_sum l'.
Proof.
  induction 1 as [|x l l' _ IH|x y l|l l' l'' _ IH1 _ IH2]; simpl.
  - reflexivity.
  - now rewrite IH.
  - apply vec3_eq; simpl; ring.
  - congruence.
Qed.

Lemma vec_mean_Permutation (l l' : list vec3) :
  Permutation l l' -> vec_mean l = vec_mean l'.
Proof.
  intros H. unfold vec_mean.
  now rewrite (vec_sum_Permutation _ _ H), (Permutation_length H).
Qed.

(** X15.  The force of [Baeuerle2020] does not depend on the order of the
    other colloids. *)
Theorem Baeuerle2020_calc_force_Permutation (self : Baeuerle2020.t)
        (colloid : Colloid) (l l' : list Colloid) :
  Permutation l l' ->
  Baeuerle2020.calc_force self colloid l
  = Baeuerle2020.calc_force self colloid l'.
Proof.
  intros H. unfold Baeuerle2020.calc_force. rewrite !_calc_force_steer.
  cbv zeta.
  pose proof (get_colloids_in_vision_Permutation colloid l l'
                (Baeuerle2020.vision_half_angle self)
                (Baeuerle2020.detection_radius_position self) H) as Hp.
  pose proof (get_colloids_in_vision_Permutation colloid l l'
                (Baeuerle2020.vision_half_angle self)
                (Baeuerle2020.detection_radius_orientation self) H) as Ho.
  rewrite (Permutation_length Hp), (Permutation_length Ho).
  rewrite (vec_mean_Permutation _ _ (Permutation_map pos Hp)).
  rewrite (vec_mean_Permutation _ _ (Permutation_map director Ho)).
  reflexivity.
Qed.

Lemma vec_sum_translate (t : vec3) (l : list vec3) :
  vec_sum (map (fun v => vec_add v t) l)
  = vec_add (vec_sum l) (np.scale (INR (length l)) t).
Proof.
  induction l as [|v l IH].
  - apply vec3_eq; simpl; ring.
  - cbn [map vec_sum fold_right length].
    fold (vec_sum (map (fun v0 => vec_add v0 t) l)). rewrite IH.
    fold (vec_sum l). rewrite S_INR. apply vec3_eq; simpl; ring.
Qed.

Lemma vec_mean_translate (t : vec3) (l : list vec3) :
  l <> [] ->
  vec_mean (map (fun v => vec_add v t) l) = vec_add (vec_mean l) t.
Proof.
  intros Hl. unfold vec_mean. rewrite vec_sum_translate, length_map.
  assert (Hn : INR (length l) <> 0).
  { apply not_0_INR. destruct l; [contradiction | discriminate]. }
  apply vec3_eq; simpl; field; exact Hn.
Qed.

(** X16.  The force of [Baeuerle2020] is the same after every colloid is
    moved by the same vector. *)
Theorem Baeuerle2020_calc_force_translate (self : Baeuerle2020.t)
        (t : vec3) (colloid : Colloid) (other_colloids : list Colloid) :
  Baeuerle2020.calc_force self (translate t colloid)
                          (map (translate t) other_colloids)
  = Baeuerle2020.calc_force self colloid other_colloids.
Proof.
  unfold Baeuerle2020.calc_force. rewrite !_calc_force_steer. cbv zeta.
  rewrite !vision_translate, !length_map.
  set (seen_pos := get_colloids_in_vision colloid other_colloids _
                     (Baeuerle2020.detection_radius_position self)).
  set (seen_ori := get_colloids_in_vision colloid other_colloids _
                     (Baeuerle2020.detection_radius_orientation self)).
  destruct (length seen_pos =? 0)%nat eqn:Hp; [reflexivity|].
  destruct (length seen_ori =? 0)%nat eqn:Ho; [reflexivity|].
  cbn [orb]. rewrite !map_map. cbn [director pos translate].
  change (map (fun x => vec_add (pos x) t) seen_pos)
    with (map (fun x => (fun v => vec_add v t) (pos x)) seen_pos).
  rewrite <- (map_map pos (fun v => vec_add v t)).
  rewrite vec_mean_translate, sub_translate.
  - reflexivity.
  - intros He. apply map_eq_nil in He. subst seen_pos.
    rewrite He in Hp. discriminate Hp.
Qed.

Lemma steer_scale (act_force angular_deviation : R)
      (to_com mean_director : vec3) :
  steer act_force angular_deviation to_com mean_director
  = np.scale act_force (steer 1 angular_deviation to_com mean_director).
Proof.
  unfold steer. destruct (unit_vector mean_director);
    apply vec3_eq; simpl; ring.
Qed.

Lemma _calc_force_linear (self : Baeuerle2020.t) (colloid : Colloid)
      (other_colloids : list Colloid) :
  Baeuerle2020._calc_force self colloid other_colloids
  = np.scale (Baeuerle2020.act_force self)
             (Baeuerle2020._calc_force (with_act_force self 1) colloid
                                       other_colloids).
Proof.
  rewrite !_calc_force_steer. cbv zeta.
  cbn [with_act_force Baeuerle2020.vision_half_angle
       Baeuerle2020.detection_radius_position
       Baeuerle2020.detection_radius_orientation
       Baeuerle2020.angular_deviation Baeuerle2020.act_force].
  destruct (_ || _)%bool.
  - apply vec3_eq; simpl; ring.
  - apply steer_scale.
Qed.

(** X17.  The force of [Baeuerle2020] is [act_force] times the force of the
    same model with [act_force = 1]: the strength scales the force and has
    no part in its direction. *)
Theorem Baeuerle2020_calc_force_linear (self : Baeuerle2020.t)
        (colloid : Colloid) (other_colloids : list Colloid) :
  Baeuerle2020.calc_force self colloid other_colloids
  = np.scale (Baeuerle2020.act_force self)
             (Baeuerle2020.calc_force (with_act_force self 1) colloid
                                      other_colloids).
Proof. unfold Baeuerle2020.calc_force. apply _calc_force_linear. Qed.


(** X18.  With [act_force = 0] the force is zero on every input, and
    [calc_new_direction] then divides by a zero norm on every input. *)
Theorem Baeuerle2020_zero_act_force (self : Baeuerle2020.t)
        (colloid : Colloid) (other_colloids : list Colloid) :
  Baeuerle2020.act_force self = 0 ->
  Baeuerle2020.calc_force self colloid other_colloids = V3 0 0 0
  /\ Baeuerle2020.calc_new_direction self colloid other_colloids = None.
Proof.
  intros H0.
  assert (Hf : Baeuerle2020._calc_force self colloid other_colloids
               = V3 0 0 0).
  { rewrite (_calc_force_linear self colloid other_colloids), H0.
    apply vec3_eq; simpl; ring. }
  split; [exact Hf|].
  unfold Baeuerle2020.calc_new_direction. rewrite Hf, norm_zero_vector.
  apply div_zero.
Qed.


(** X20.  With [angular_deviation = 0] and both vision sets non-empty the
    force points from the colloid to the centre of mass of the neighbours
    within [detection_radius_position], in the x-y plane: it is [act_force]
    times the x-y part of [com - colloid.pos] scaled to unit norm, when that
    part is not zero. *)
Theorem Baeuerle2020_calc_force_to_com (self : Baeuerle2020.t)
        (colloid : Colloid) (other_colloids : list Colloid) :
  let seen_pos :=
    get_colloids_in_vision colloid other_colloids
      (Baeuerle2020.vision_half_angle self)
      (Baeuerle2020.detection_radius_position self) in
  let to_com := np.sub (vec_mean (map pos seen_pos)) (pos colloid) in
  let r := sqrt (vx to_com * vx to_com + vy to_com * vy to_com) in
  Baeuerle2020.angular_deviation self = 0 ->
  seen_pos <> [] ->
  get_colloids_in_vision colloid other_colloids
    (Baeuerle2020.vision_half_angle self)
    (Baeuerle2020.detection_radius_orientation self) <> [] ->
  vx to_com <> 0 \/ vy to_com <> 0 ->
  Baeuerle2020.calc_force self colloid other_colloids
  = np.scale (Baeuerle2020.act_force self)
             (V3 (vx to_com / r) (vy to_com / r) 0).
Proof.
  intros seen_pos to_com r Had Hp Ho Hxy.
  unfold Baeuerle2020.calc_force. rewrite _calc_force_steer. cbv zeta.
  fold seen_pos. rewrite (length_eqb_0_false _ Hp), (length_eqb_0_false _ Ho).
  cbn [orb]. fold to_com. unfold steer. rewrite Had, Rplus_0_r, Rminus_0_r.
  pose proof (vector_from_angle_from_vector_aux to_com Hxy) as Hv.
  fold r in Hv. unfold angle_from_vector in Hv.
  assert (Hsame : forall u,
             smaller_deviation (np.arctan2 (vy to_com) (vx to_com))
                               (np.arctan2 (vy to_com) (vx to_com)) u
             = np.arctan2 (vy to_com) (vx to_com)).
  { intros u. unfold smaller_deviation. now destruct (Rleb _ _). }
  destruct (unit_vector _); [rewrite Hsame|]; now rewrite Hv.
Qed.

Lemma vision_app (coll : Colloid) (l1 l2 : list Colloid) (vha : R)
      (vr : ereal) :
  get_colloids_in_vision coll (l1 ++ l2) vha vr
  = get_colloids_in_vision coll l1 vha vr
    ++ get_colloids_in_vision coll l2 vha vr.
Proof. rewrite !get_colloids_in_vision_filter. apply filter_app. Qed.

(** X21.  Colloids that the focal one does not see have no part in the
    force of [Lavergne2019]: appending them to the others changes
    nothing. *)
Theorem Lavergne2019_calc_force_unseen (self : Lavergne2019.t)
        (colloid : Colloid) (l unseen : list Colloid) :
  get_colloids_in_vision colloid unseen
    (Lavergne2019.vision_half_angle self) PInf = [] ->
  Lavergne2019.calc_force self colloid (l ++ unseen)
  = Lavergne2019.calc_force self colloid l.
Proof.
  intros H. rewrite !Lavergne2019_calc_force_cases. unfold perception_spec.
  now rewrite vision_app, H, app_nil_r.
Qed.

(** X22.  Colloids that the focal one sees within neither detection radius
    have no part in the force of [Baeuerle2020]. *)
Theorem Baeuerle2020_calc_force_unseen (self : Baeuerle2020.t)
        (colloid : Colloid) (l unseen : list Colloid) :
  get_colloids_in_vision colloid unseen
    (Baeuerle2020.vision_half_angle self)
    (Baeuerle2020.detection_radius_position self) = [] ->
  get_colloids_in_vision colloid unseen
    (Baeuerle2020.vision_half_angle self)
    (Baeuerle2020.detection_radius_orientation self) = [] ->
  Baeuerle2020.calc_force self colloid (l ++ unseen)
  = Baeuerle2020.calc_force self colloid l.
Proof.
  intros Hp Ho. unfold Baeuerle2020.calc_force.
  rewrite !_calc_force_steer. cbv zeta.
  now rewrite !vision_app, Hp, Ho, !app_nil_r.
Qed.

(** ** [MLModel] *)

(** X23.  The lookup [self.actions[list(self.actions)[idx]]] of
    [calc_action] never misses a key: it gives the entry of the table of
    the four actions at [idx], and raises, with an IndexError, exactly for
    an index of four or more. *)
Theorem actions_lookup_bounds (idx : nat) :
  match nth_error (MLModel.keys MLModel.actions) idx with
  | Some key => MLModel.getitem MLModel.actions key
  | None => None
  end = nth_error MLModel.action_table idx
  /\ (nth_error (MLModel.keys MLModel.actions) idx = None <-> (4 <= idx)%nat)
  /\ NoDup (MLModel.keys MLModel.actions).
Proof.
  split; [|split].
  - destruct idx as [|[|[|[|idx]]]]; try reflexivity.
    simpl. now destruct idx.
  - rewrite nth_error_None. simpl. reflexivity.
  - simpl. repeat constructor; simpl; intuition discriminate.
Qed.


Lemma other_colloids_of_count (colloids : list MLModel.ref)
      (colloid : MLModel.ref) :
  (length (MLModel.other_colloids_of colloids colloid)
   + count_occ Nat.eq_dec colloids colloid = length colloids)%nat.
Proof.
  unfold MLModel.other_colloids_of, MLModel.is_not.
  induction colloids as [|c l IH]; [reflexivity|]. cbn [filter count_occ].
  destruct (Nat.eq_dec c colloid) as [->|Hne].
  - rewrite Nat.eqb_refl. cbn [negb length]. lia.
  - apply Nat.eqb_neq in Hne. rewrite Hne. cbn [negb length]. lia.
Qed.

(** X25.  The list of the others has the length of the input less the
    number of times the focal object is in the input: an object that is in
    the input several times is left out each time. *)
Theorem other_colloids_of_length (colloids : list MLModel.ref)
        (colloid : MLModel.ref) :
  (length (MLModel.other_colloids_of colloids colloid)
   + count_occ Nat.eq_dec colloids colloid = length colloids)%nat.
Proof. apply other_colloids_of_count. Qed.

(** X26.  For an input of distinct objects the observable of each colloid
    gets all the others: one object less than the input. *)
Theorem other_colloids_of_distinct (colloids : list MLModel.ref)
        (colloid : MLModel.ref) :
  NoDup colloids -> In colloid colloids ->
  S (length (MLModel.other_colloids_of colloids colloid)) = length colloids.
Proof.
  intros Hnd Hin.
  pose proof (other_colloids_of_count colloids colloid) as Hlen.
  pose proof (proj1 (NoDup_count_occ Nat.eq_dec colloids) Hnd colloid).
  pose proof (proj1 (count_occ_In Nat.eq_dec colloids colloid) Hin). lia.
Qed.

(** ** The models over the store *)

(** X27.  The array that [calc_force] or [calc_torque] of either model
    returns is a new one: it is none of the arrays that were there before
    the call, so no position or director of a colloid is returned. *)
Theorem calc_force_calc_torque_new_array (colloid : Imp.ref)
        (other_colloids : list Imp.ref)
        (lavergne : Imp.state Lavergne2019.t)
        (baeuerle : Imp.state Baeuerle2020.t) :
  (length (Imp.arrays lavergne)
   <= fst (Imp.Lavergne2019.calc_force colloid other_colloids lavergne))%nat
  /\ (length (Imp.arrays lavergne)
      <= fst (Imp.Lavergne2019.calc_torque colloid other_colloids
                                           lavergne))%nat
  /\ (length (Imp.arrays baeuerle)
      <= fst (Imp.Baeuerle2020.calc_force colloid other_colloids
                                          baeuerle))%nat
  /\ (length (Imp.arrays baeuerle)
      <= fst (Imp.Baeuerle2020.calc_torque colloid other_colloids
                                           baeuerle))%nat.
Proof.
  split; [|split; [|split]].
  - apply (Lavergne2019_calc_force_keeps _ colloid other_colloids lavergne).
    lia.
  - apply (np_zeros_spec (P := Lavergne2019.t) _ lavergne). lia.
  - apply (Baeuerle2020_calc_force_keeps _ colloid other_colloids baeuerle).
    lia.
  - apply (np_zeros_spec (P := Baeuerle2020.t) _ baeuerle). lia.
Qed.

(** X28.  The force depends on the store only through the positions and
    directors of the colloids: from two stores in which the objects stand
    for the same colloids, whatever the addresses of their arrays, and with
    the same model attributes, [calc_force] of either model returns arrays
    with the same content. *)
Theorem calc_force_store_independent (value : Imp.ref -> Colloid)
        (colloid : Imp.ref) (other_colloids : list Imp.ref)
        (l1 l2 : Imp.state Lavergne2019.t)
        (b1 b2 : Imp.state Baeuerle2020.t) :
  (forall r, In r (colloid :: other_colloids) ->
             Imp.represents l1 r (value r) /\ Imp.represents l2 r (value r)
             /\ Imp.represents b1 r (value r)
             /\ Imp.represents b2 r (value r)) ->
  Imp.self l1 = Imp.self l2 ->
  Imp.self b1 = Imp.self b2 ->
  result_content (Imp.Lavergne2019.calc_force colloid other_colloids l1)
  = result_content (Imp.Lavergne2019.calc_force colloid other_colloids l2)
  /\ result_content (Imp.Baeuerle2020.calc_force colloid other_colloids b1)
     = result_content
         (Imp.Baeuerle2020.calc_force colloid other_colloids b2).
Proof.
  intros Hrep Hl Hb. unfold result_content. split.
  - pose proof (Lavergne2019_calc_force_run value l1 colloid other_colloids
                  (fun r Hr => proj1 (Hrep r Hr))) as H1.
    pose proof (Lavergne2019_calc_force_run value l2 colloid other_colloids
                  (fun r Hr => proj1 (proj2 (Hrep r Hr)))) as H2.
    cbv zeta in H1, H2. unfold Imp.holds in H1, H2.
    rewrite H1, H2, Hl. reflexivity.
  - pose proof (Baeuerle2020_calc_force_run value b1 colloid other_colloids
                  (fun r Hr => proj1 (proj2 (proj2 (Hrep r Hr))))) as H1.
    pose proof (Baeuerle2020_calc_force_run value b2 colloid other_colloids
                  (fun r Hr => proj2 (proj2 (proj2 (Hrep r Hr))))) as H2.
    cbv zeta in H1, H2. unfold Imp.holds in H1, H2.
    rewrite H1, H2, Hb. reflexivity.
Qed.

(** ** The further properties at the example inputs *)

Lemma half_pi_le_pi : PI / 2 <= PI.
Proof. pose proof PI_RGT_0. lra. Qed.

Lemma get_colloids_in_vision_mono_witness :
  PI / 2 <= PI /\ le_ereal (Fin 2) PInf
  /\ forall c,
      In c (get_colloids_in_vision focal [neighbour] (PI / 2) (Fin 2)) ->
      In c (get_colloids_in_vision focal [neighbour] PI PInf).
Proof.
  split; [exact half_pi_le_pi|]. split; [exact I|].
  exact (get_colloids_in_vision_mono focal [neighbour] (PI / 2) PI (Fin 2)
           PInf half_pi_le_pi I).
Defined.

Lemma get_colloids_in_vision_closed_cone_witness :
  0 <= 0 /\ get_colloids_in_vision focal [neighbour] 0 PInf = [].
Proof.
  split; [apply Rle_refl|].
  exact (get_colloids_in_vision_closed_cone focal [neighbour] 0 PInf
           (Rle_refl 0)).
Defined.



Lemma one_in_range : - PI < 1 <= PI.
Proof. pose proof PI2_1. lra. Qed.

Lemma angle_from_vector_from_angle_witness :
  - PI < 1 <= PI /\ angle_from_vector (vector_from_angle 1) = 1.
Proof.
  split; [exact one_in_range|].
  exact (angle_from_vector_from_angle 1 one_in_range).
Defined.

Lemma three_nonzero : vx (V3 3 4 0) <> 0 \/ vy (V3 3 4 0) <> 0.
Proof. left. simpl. lra. Qed.

Lemma vector_from_angle_from_vector_witness :
  (vx (V3 3 4 0) <> 0 \/ vy (V3 3 4 0) <> 0)
  /\ vector_from_angle (angle_from_vector (V3 3 4 0))
     = V3 (3 / sqrt (3 * 3 + 4 * 4)) (4 / sqrt (3 * 3 + 4 * 4)) 0.
Proof.
  split; [exact three_nonzero|].
  exact (vector_from_angle_from_vector (V3 3 4 0) three_nonzero).
Defined.


Lemma Lavergne2019_alone_passive_witness :
  0 < Lavergne2019.perception_threshold Lavergne2019.init_default
  /\ get_colloids_in_vision focal [] (PI / 2) PInf = []
  /\ Lavergne2019.calc_force Lavergne2019.init_default focal []
     = Some (V3 0 0 0).
Proof.
  split; [exact Rlt_0_1|]. split; [reflexivity|].
  exact (Lavergne2019_alone_passive Lavergne2019.init_default focal []
           Rlt_0_1 eq_refl).
Defined.



Lemma Lavergne2019_calc_force_Permutation_witness :
  Permutation [neighbour; focal] [focal; neighbour]
  /\ Lavergne2019.calc_force lavergne_eager focal [neighbour; focal]
     = Lavergne2019.calc_force lavergne_eager focal [focal; neighbour].
Proof.
  split; [apply perm_swap|].
  exact (Lavergne2019_calc_force_Permutation lavergne_eager focal
           [neighbour; focal] [focal; neighbour] (perm_swap _ _ _)).
Defined.

Lemma Baeuerle2020_calc_force_Permutation_witness :
  Permutation [neighbour; focal] [focal; neighbour]
  /\ Baeuerle2020.calc_force baeuerle_example focal [neighbour; focal]
     = Baeuerle2020.calc_force baeuerle_example focal [focal; neighbour].
Proof.
  split; [apply perm_swap|].
  exact (Baeuerle2020_calc_force_Permutation baeuerle_example focal
           [neighbour; focal] [focal; neighbour] (perm_swap _ _ _)).
Defined.

Lemma Baeuerle2020_zero_act_force_witness :
  Baeuerle2020.act_force (with_act_force baeuerle_example 0) = 0
  /\ Baeuerle2020.calc_force (with_act_force baeuerle_example 0) focal
                             [neighbour] = V3 0 0 0
  /\ Baeuerle2020.calc_new_direction (with_act_force baeuerle_example 0)
                                     focal [neighbour] = None.
Proof.
  split; [reflexivity|].
  exact (Baeuerle2020_zero_act_force (with_act_force baeuerle_example 0)
           focal [neighbour] eq_refl).
Defined.


Lemma neighbour_to_com :
  np.sub (vec_mean
            (map pos
                 (get_colloids_in_vision focal [neighbour] (PI / 2) (Fin 2))))
         (pos focal) = V3 1 0 0.
Proof.
  rewrite neighbour_in_vision. cbn [map]. rewrite vec_mean_singleton.
  apply vec3_eq; simpl; ring.
Qed.

Lemma neighbour_to_com_nonzero :
  let to_com :=
    np.sub (vec_mean
              (map pos
                   (get_colloids_in_vision focal [neighbour] (PI / 2)
                                           (Fin 2))))
           (pos focal) in
  vx to_com <> 0 \/ vy to_com <> 0.
Proof. cbv zeta. rewrite neighbour_to_com. left. simpl. lra. Qed.

Lemma Baeuerle2020_calc_force_to_com_witness :
  let to_com :=
    np.sub (vec_mean
              (map pos
                   (get_colloids_in_vision focal [neighbour] (PI / 2)
                                           (Fin 2))))
           (pos focal) in
  let r := sqrt (vx to_com * vx to_com + vy to_com * vy to_com) in
  Baeuerle2020.angular_deviation baeuerle_straight = 0
  /\ get_colloids_in_vision focal [neighbour] (PI / 2) (Fin 2) <> []
  /\ (vx to_com <> 0 \/ vy to_com <> 0)
  /\ Baeuerle2020.calc_force baeuerle_straight focal [neighbour]
     = np.scale 1 (V3 (vx to_com / r) (vy to_com / r) 0).
Proof.
  intros to_com r.
  split; [reflexivity|]. split; [exact neighbour_seen|].
  split; [exact neighbour_to_com_nonzero|].
  exact (Baeuerle2020_calc_force_to_com baeuerle_straight focal [neighbour]
           eq_refl neighbour_seen neighbour_seen neighbour_to_com_nonzero).
Defined.

Lemma focal_not_seen (vha : R) (vr : ereal) :
  get_colloids_in_vision focal [focal] vha vr = [].
Proof.
  rewrite get_colloids_in_vision_filter. cbn [filter].
  now rewrite (same_position_not_seen focal focal vha vr eq_refl).
Qed.

Lemma Lavergne2019_calc_force_unseen_witness :
  get_colloids_in_vision focal [focal] (PI / 2) PInf = []
  /\ Lavergne2019.calc_force Lavergne2019.init_default focal
                             ([neighbour] ++ [focal])
     = Lavergne2019.calc_force Lavergne2019.init_default focal [neighbour].
Proof.
  split; [exact (focal_not_seen (PI / 2) PInf)|].
  exact (Lavergne2019_calc_force_unseen Lavergne2019.init_default focal
           [neighbour] [focal] (focal_not_seen (PI / 2) PInf)).
Defined.

Lemma Baeuerle2020_calc_force_unseen_witness :
  get_colloids_in_vision focal [focal] (PI / 2) (Fin 2) = []
  /\ Baeuerle2020.calc_force baeuerle_example focal ([neighbour] ++ [focal])
     = Baeuerle2020.calc_force baeuerle_example focal [neighbour].
Proof.
  split; [exact (focal_not_seen (PI / 2) (Fin 2))|].
  exact (Baeuerle2020_calc_force_unseen baeuerle_example focal [neighbour]
           [focal] (focal_not_seen (PI / 2) (Fin 2))
           (focal_not_seen (PI / 2) (Fin 2))).
Defined.

Lemma stores_represent (r : Imp.ref) :
  In r [0; 1]%nat ->
  Imp.represents (store_example Lavergne2019.init_default) r
                 (store_example_value r)
  /\ Imp.represents (store_example_moved Lavergne2019.init_default) r
                    (store_example_value r)
  /\ Imp.represents (store_example baeuerle_example) r
                    (store_example_value r)
  /\ Imp.represents (store_example_moved baeuerle_example) r
                    (store_example_value r).
Proof. intros [<-|[<-|[]]]; repeat split. Qed.

Lemma calc_force_store_independent_witness :
  (forall r, In r [0; 1]%nat ->
             Imp.represents (store_example Lavergne2019.init_default) r
                            (store_example_value r)
             /\ Imp.represents (store_example_moved Lavergne2019.init_default)
                               r (store_example_value r)
             /\ Imp.represents (store_example baeuerle_example) r
                               (store_example_value r)
             /\ Imp.represents (store_example_moved baeuerle_example) r
                               (store_example_value r))
  /\ result_content
       (Imp.Lavergne2019.calc_force 0%nat [1%nat]
          (store_example Lavergne2019.init_default))
     = result_content
         (Imp.Lavergne2019.calc_force 0%nat [1%nat]
            (store_example_moved Lavergne2019.init_default))
  /\ result_content
       (Imp.Baeuerle2020.calc_force 0%nat [1%nat]
          (store_example baeuerle_example))
     = result_content
         (Imp.Baeuerle2020.calc_force 0%nat [1%nat]
            (store_example_moved baeuerle_example)).
Proof.
  split; [exact stores_represent|].
  exact (calc_force_store_independent store_example_value 0%nat [1%nat]
           (store_example Lavergne2019.init_default)
           (store_example_moved Lavergne2019.init_default)
           (store_example baeuerle_example)
           (store_example_moved baeuerle_example)
           stores_represent eq_refl eq_refl).
Defined.

Lemma distinct_objects : NoDup [0; 1; 2]%nat.
Proof. repeat constructor; simpl; intuition discriminate. Qed.

Lemma other_colloids_of_distinct_witness :
  NoDup [0; 1; 2]%nat /\ In 1%nat [0; 1; 2]%nat
  /\ S (length (MLModel.other_colloids_of [0; 1; 2]%nat 1%nat))
     = length [0; 1; 2]%nat.
Proof.
  split; [exact distinct_objects|]. split; [right; left; reflexivity|].
  exact (other_colloids_of_distinct [0; 1; 2]%nat 1%nat distinct_objects
           (or_intror (or_introl eq_refl))).
Defined.
